(** * Note-Taking: the streaming segmentation and deduplication pipeline

    A shallow embedding of [TranscriptionThread] from
    [src/transcription_app.py]: the voice activity detector
    ([find_speech_boundaries]), the segment extraction, the duplicate
    filter and the buffer retention of one iteration of [run].

    Conventions.
    - A Python [int] is a [Z].
    - A numpy float is a [float]: either a finite value, kept as an exact
      rational, or [nan].  Rounding and infinities are outside the model.
    - A numpy array is a [list]; a Python [str] is a [string].
    - A Python call that can raise returns a [result]. *)

From Stdlib Require Import ZArith QArith Qabs List Lia Bool String Ascii.
From Stdlib Require Import Sorted Lqa.
Import ListNotations.
Open Scope Z_scope.

(** ** Exceptions *)

Inductive exn : Type :=
| IndexError
| ValueError
| InferenceError.

Inductive result (A : Type) : Type :=
| Ok (a : A)
| Raise (e : exn).

Arguments Ok {A} a.
Arguments Raise {A} e.

Definition bind {A B : Type} (r : result A) (k : A -> result B) : result B :=
  match r with
  | Ok a => k a
  | Raise e => Raise e
  end.

Notation "x <- r ;; k" := (bind r (fun x => k))
  (at level 61, r at next level, right associativity).
Notation "' p <- r ;; k" := (bind r (fun x => let p := x in k))
  (at level 61, p pattern, r at next level, right associativity).

(** ** Python sequences *)

Module Py.

Section Seq.
Context {A : Type}.

Definition len (l : list A) : Z := Z.of_nat (List.length l).

(** A slice bound [i] of a sequence of length [n]: a negative bound counts
    from the end, and every bound is clamped to [0 .. n]. *)
Definition bound (n i : Z) : Z :=
  if i <? 0 then Z.max 0 (i + n) else Z.min i n.

(** [l[lo:hi]] *)
Definition slice (l : list A) (lo hi : Z) : list A :=
  let a := bound (len l) lo in
  let b := bound (len l) hi in
  firstn (Z.to_nat (b - a)) (skipn (Z.to_nat a) l).

(** [l[lo:]] *)
Definition slice_from (l : list A) (lo : Z) : list A :=
  skipn (Z.to_nat (bound (len l) lo)) l.

(** [l[:hi]] *)
Definition slice_to (l : list A) (hi : Z) : list A :=
  firstn (Z.to_nat (bound (len l) hi)) l.

(** [l[0]] and [l[-1]], which raise [IndexError] on an empty sequence. *)
Definition first (l : list A) : result A :=
  match l with
  | [] => Raise IndexError
  | x :: _ => Ok x
  end.

Fixpoint last (l : list A) : result A :=
  match l with
  | [] => Raise IndexError
  | [x] => Ok x
  | _ :: r => last r
  end.

End Seq.

(** [range(start, stop, step)] for a positive [step]. *)
Definition range (start stop step : Z) : list Z :=
  if stop <=? start then []
  else map (fun k => start + Z.of_nat k * step)
           (seq 0 (Z.to_nat ((stop - start + step - 1) / step))).

(** [any(mask)] *)
Definition any (mask : list bool) : bool := existsb (fun b => b) mask.

End Py.

(** ** numpy floats and arrays *)

Module Np.

(** [None] is [nan]. *)
Definition float : Type := option Q.

Definition nan : float := None.
Definition fin (q : Q) : float := Some q.

Definition f_abs (x : float) : float := option_map Qabs x.

Definition f_add (x y : float) : float :=
  match x, y with
  | Some a, Some b => Some (a + b)%Q
  | _, _ => nan
  end.

Definition f_mul (x y : float) : float :=
  match x, y with
  | Some a, Some b => Some (a * b)%Q
  | _, _ => nan
  end.

(** The quotient by a zero is not a finite value; the program divides
    under the guard [max_val > 0] only. *)
Definition f_div (x y : float) : float :=
  match x, y with
  | Some a, Some b => if Qeq_bool b 0 then nan else Some (a / b)%Q
  | _, _ => nan
  end.

(** [x > y]; a comparison with [nan] is false. *)
Definition f_gt (x y : float) : bool :=
  match x, y with
  | Some a, Some b => negb (Qle_bool a b)
  | _, _ => false
  end.

(** [x < y]; a comparison with [nan] is false. *)
Definition f_lt (x y : float) : bool :=
  match x, y with
  | Some a, Some b => negb (Qle_bool b a)
  | _, _ => false
  end.

(** The larger of two floats, [nan] if either is. *)
Definition f_max (x y : float) : float :=
  match x, y with
  | Some a, Some b => Some (if Qle_bool a b then b else a)
  | _, _ => nan
  end.

Definition array : Type := list float.

Definition abs (a : array) : array := map f_abs a.

Definition sum (a : array) : float := fold_right f_add (fin 0) a.

(** [np.mean(a)]: [nan] on an empty array. *)
Definition mean (a : array) : float :=
  match a with
  | [] => nan
  | _ => f_div (sum a) (fin (inject_Z (Py.len a)))
  end.

(** [np.max(a)]: raises [ValueError] on an empty array. *)
Definition max (a : array) : result float :=
  match a with
  | [] => Raise ValueError
  | x :: r => Ok (fold_left f_max r x)
  end.

(** [a / d] for a scalar [d]. *)
Definition div (a : array) (d : float) : array :=
  map (fun x => f_div x d) a.

(** [np.pad(a, (0, n), mode='constant')] *)
Definition pad (a : array) (n : Z) : array :=
  a ++ repeat (fin 0) (Z.to_nat n).

Fixpoint where_from (i : Z) (mask : list bool) : list Z :=
  match mask with
  | [] => []
  | b :: r => (if b then [i] else []) ++ where_from (i + 1) r
  end.

(** [np.where(mask)[0]]: the indices at which [mask] holds, ascending. *)
Definition where_ (mask : list bool) : list Z := where_from 0 mask.

End Np.

Import Np.

(** ** The voice activity detector *)

Definition SAMPLE_RATE : Z := 16000.
Definition MIN_PHRASE_LENGTH : Z := 10.
Definition window_size : Z := 1024.

(** The offsets [i] at which [find_speech_boundaries] takes a window. *)
Definition window_offsets (audio_data : array) : list Z :=
  Py.range 0 (Py.len audio_data - window_size) window_size.

Definition energy (audio_data : array) : array :=
  map (fun i => Np.mean (Np.abs (Py.slice audio_data i (i + window_size))))
      (window_offsets audio_data).

Definition threshold (energy : array) : float :=
  f_mul (Np.mean energy) (fin (1 # 2)).

(** [energy > threshold], element by element. *)
Definition speech_regions (energy : array) : list bool :=
  let threshold := threshold energy in
  map (fun e => f_gt e threshold) energy.

Definition find_speech_boundaries (audio_data : array) : result (Z * Z) :=
  let energy := energy audio_data in
  let speech_regions := speech_regions energy in
  if negb (Py.any speech_regions) then
    Ok (0, Py.len audio_data)
  else
    i <- Py.first (Np.where_ speech_regions) ;;
    j <- Py.last (Np.where_ speech_regions) ;;
    let start := i * window_size in
    let end_ := (j + 1) * window_size in
    Ok (Z.max 0 start, Z.min (Py.len audio_data) end_).

(** ** The silence test

    [is_silence], lines 52-53; [threshold_multiplier] defaults to 1.0. *)

Definition SILENCE_THRESHOLD : Q := 5 # 1000.

Definition is_silence (audio_data : array) (threshold_multiplier : float)
  : result bool :=
  peak <- Np.max (Np.abs audio_data) ;;
  Ok (f_lt peak (f_mul (fin SILENCE_THRESHOLD) threshold_multiplier)).

(** ** Segment extraction

    Lines 110-120 of [run]: the duration gate, the slice, the peak
    normalisation and the padding. *)

Definition normalize (speech_segment : array) : result array :=
  max_val <- Np.max (Np.abs speech_segment) ;;
  Ok (if f_gt max_val (fin 0) then Np.div speech_segment max_val
      else speech_segment).

(** [Ok None]: the region is too short and nothing is transcribed. *)
Definition extract_segment (audio_buffer : array) (start end_ : Z)
  : result (option array) :=
  if end_ - start >? SAMPLE_RATE then
    let speech_segment := Py.slice audio_buffer start end_ in
    speech_segment <- normalize speech_segment ;;
    Ok (Some (Np.pad speech_segment SAMPLE_RATE))
  else Ok None.

(** ** Python strings *)

Module Str.

Definition len (s : string) : Z := Z.of_nat (String.length s).

(** The truth value of a string: false exactly for the empty one. *)
Definition truthy (s : string) : bool :=
  match s with
  | EmptyString => false
  | String _ _ => true
  end.

(** [needle in hay] *)
Fixpoint contains (hay needle : string) : bool :=
  String.prefix needle hay ||
  match hay with
  | EmptyString => false
  | String _ rest => contains rest needle
  end.

(** [str.lower] on the ASCII letters; the theorems below hold for any
    lower-casing function, this one evaluates the examples. *)
Definition lower_char (c : ascii) : ascii :=
  let n := N_of_ascii c in
  if ((65 <=? n) && (n <=? 90))%N then ascii_of_N (n + 32) else c.

Fixpoint lower (s : string) : string :=
  match s with
  | EmptyString => EmptyString
  | String c rest => String (lower_char c) (lower rest)
  end.

End Str.

(** ** The thread object *)

Record TranscriptionThread : Type := {
  selected_device_index : option Z;
  buffer_size_seconds : Z
}.

(** [__init__] *)
Definition init : TranscriptionThread :=
  {| selected_device_index := None; buffer_size_seconds := 10 |}.

Definition set_device (self : TranscriptionThread) (device_index : Z)
  : TranscriptionThread :=
  {| selected_device_index := Some device_index;
     buffer_size_seconds := buffer_size_seconds self |}.

Definition set_buffer_size (self : TranscriptionThread) (seconds : Z)
  : TranscriptionThread :=
  {| selected_device_index := selected_device_index self;
     buffer_size_seconds := Z.max 5 (Z.min 30 seconds) |}.

Definition MIN_SAMPLES (self : TranscriptionThread) : Z :=
  SAMPLE_RATE * buffer_size_seconds self.

(** ** The input devices

    What PyAudio reports: [get_device_count()] entries, each a dictionary
    of which the program reads ['name'] and ['maxInputChannels']. *)

Module PyAudio.

Record device_info : Type := {
  name : string;
  maxInputChannels : Z
}.

End PyAudio.

(** The name shown for a device, lines 34-38. *)
Definition display_name (name : string) : string :=
  if Str.contains name "CABLE Output" then (name ++ " (Virtual Cable)")%string
  else (name ++ " (Microphone)")%string.

(** The loop of [get_available_devices] from index [i] on. *)
Fixpoint available_from (i : Z) (devs : list PyAudio.device_info)
  : list (string * Z) :=
  match devs with
  | [] => []
  | dev :: rest =>
    (if PyAudio.maxInputChannels dev >? 0
     then [(display_name (PyAudio.name dev), i)] else [])
    ++ available_from (i + 1) rest
  end.

Definition get_available_devices (p : list PyAudio.device_info)
  : list (string * Z) :=
  available_from 0 p.

(** [TranscriptionApp.populate_device_list], lines 215-225: the items put
    in [device_combo], and the index given to [setCurrentIndex], if any. *)
Fixpoint first_virtual_cable (i : Z) (items : list string) : option Z :=
  match items with
  | [] => None
  | text :: rest =>
    if Str.contains text "Virtual Cable" then Some i
    else first_virtual_cable (i + 1) rest
  end.

Definition populate_device_list (p : list PyAudio.device_info)
  : list string * option Z :=
  let devices := get_available_devices p in
  let items := map fst devices in
  (items, first_virtual_cable 0 items).

(** [TranscriptionApp.on_device_changed], lines 227-232, as it acts on the
    thread; [devices[index]] raises [IndexError] out of range. *)
Definition on_device_changed (p : list PyAudio.device_info)
  (thread : TranscriptionThread) (index : Z) : result TranscriptionThread :=
  let devices := get_available_devices p in
  if (index >=? 0) && (index <? Py.len devices) then
    match nth_error devices (Z.to_nat index) with
    | Some (_, device_index) => Ok (set_device thread device_index)
    | None => Raise IndexError
    end
  else Ok thread.

(** [TranscriptionApp.on_buffer_size_changed], line 209, as it acts on the
    thread. *)
Definition on_buffer_size_changed (thread : TranscriptionThread) (value : Z)
  : TranscriptionThread :=
  set_buffer_size thread value.

(** ** One iteration of the loop of [run] *)

(** The locals of [run] that live across iterations. *)
Record locals : Type := {
  audio_buffer : array;
  last_transcription : string
}.

Definition start_locals : locals :=
  {| audio_buffer := []; last_transcription := EmptyString |}.

(** What one iteration did: the arrays handed to [model.transcribe], the
    strings sent on [transcription_signal], and the locals it leaves, or
    the exception that ends the loop. *)
Record iteration : Type := {
  transcribed : list array;
  emitted : list string;
  next : result locals
}.

(** A signal sent by the thread. *)
Inductive signal_sent : Type :=
| transcription_signal (text : string)
| error_signal (message : string).

Section Run.

(** [model.transcribe(padded_audio, language='en', fp16=False)['text']],
    [str.strip] and [str.lower]. *)
Variable transcribe : array -> result string.
Variable strip : string -> string.
Variable lower : string -> string.

(** Lines 127-131: the string to emit, if any, and the new
    [last_transcription]. *)
Definition dedup_filter (transcript last_transcription : string)
  : option string * string :=
  if Str.truthy transcript && (Str.len transcript >? MIN_PHRASE_LENGTH) then
    if negb (Str.contains (lower last_transcription) (lower transcript)) then
      (Some transcript, transcript)
    else (None, last_transcription)
  else (None, last_transcription).

(** Lines 100-103: the queued chunks are appended in arrival order. *)
Definition collect (audio_buffer : array) (chunks : list array) : array :=
  fold_left (fun buffer chunk => buffer ++ chunk) chunks audio_buffer.

Definition signal (e : option string) : list string :=
  match e with
  | Some transcript => [transcript]
  | None => []
  end.

(** Lines 106-134. *)
Definition process (self : TranscriptionThread) (st : locals) : iteration :=
  let audio_buffer := audio_buffer st in
  let last_transcription := last_transcription st in
  let MIN_SAMPLES := MIN_SAMPLES self in
  if Py.len audio_buffer >=? MIN_SAMPLES then
    match find_speech_boundaries (Py.slice_to audio_buffer MIN_SAMPLES) with
    | Raise e => {| transcribed := []; emitted := []; next := Raise e |}
    | Ok (start, end_) =>
      let kept := Py.slice_from audio_buffer (MIN_SAMPLES - SAMPLE_RATE) in
      match extract_segment audio_buffer start end_ with
      | Raise e => {| transcribed := []; emitted := []; next := Raise e |}
      | Ok None =>
        {| transcribed := []; emitted := [];
           next := Ok {| audio_buffer := kept;
                         last_transcription := last_transcription |} |}
      | Ok (Some padded_audio) =>
        match transcribe padded_audio with
        | Raise e =>
          {| transcribed := [padded_audio]; emitted := []; next := Raise e |}
        | Ok text =>
          let transcript := strip text in
          let '(out, last_transcription) :=
            dedup_filter transcript last_transcription in
          {| transcribed := [padded_audio]; emitted := signal out;
             next := Ok {| audio_buffer := kept;
                           last_transcription := last_transcription |} |}
        end
      end
    end
  else {| transcribed := []; emitted := []; next := Ok st |}.

Definition step (self : TranscriptionThread) (st : locals)
  (chunks : list array) : iteration :=
  process self {| audio_buffer := collect (audio_buffer st) chunks;
                  last_transcription := last_transcription st |}.

(** The loop of lines 98-136.  [arrivals] lists, for each iteration made
    before [stop] takes effect, the chunks found in the queue; an exception
    leaves the loop. *)
Fixpoint loop (self : TranscriptionThread) (st : locals)
  (arrivals : list (list array)) : iteration :=
  match arrivals with
  | [] => {| transcribed := []; emitted := []; next := Ok st |}
  | chunks :: rest =>
    let it := step self st chunks in
    match next it with
    | Raise e => it
    | Ok st' =>
      let more := loop self st' rest in
      {| transcribed := transcribed it ++ transcribed more;
         emitted := emitted it ++ emitted more;
         next := next more |}
    end
  end.

(** [self.p.open(...)] on a device index, and [str(e)]. *)
Variable open_stream : Z -> result unit.
Variable str : exn -> string.

(** [run]: the signals sent, in order. *)
Definition run (self : TranscriptionThread) (arrivals : list (list array))
  : list signal_sent :=
  match selected_device_index self with
  | None => [error_signal "No audio input device selected."]
  | Some device_index =>
    match open_stream device_index with
    | Raise e => [error_signal ("Error during transcription: " ++ str e)]
    | Ok _ =>
      let it := loop self start_locals arrivals in
      map transcription_signal (emitted it)
      ++ match next it with
         | Raise e => [error_signal ("Error during transcription: " ++ str e)]
         | Ok _ => []
         end
    end
  end.

End Run.

(** ** The window

    [TranscriptionApp] as its handlers write it: the flag, the texts of
    the button and of the status label, whether the two controls are
    enabled, the lines of the text display and the calls made on the
    thread, oldest first. *)

Inductive thread_call : Type :=
| thread_start
| thread_stop
| thread_wait.

Record TranscriptionApp : Type := {
  is_transcribing : bool;
  toggle_button : string;
  status_label : string;
  device_combo_enabled : bool;
  buffer_spin_enabled : bool;
  text_display : list string;
  thread_calls : list thread_call
}.

(** The fields at the end of [__init__]; a widget is enabled when made. *)
Definition app_init : TranscriptionApp :=
  {| is_transcribing := false;
     toggle_button := "Start Transcription";
     status_label := "Status: Ready";
     device_combo_enabled := true;
     buffer_spin_enabled := true;
     text_display := [];
     thread_calls := [] |}.

Definition stop_transcription (app : TranscriptionApp) : TranscriptionApp :=
  {| is_transcribing := false;
     toggle_button := "Start Transcription";
     status_label := "Status: Stopped";
     device_combo_enabled := true;
     buffer_spin_enabled := true;
     text_display := text_display app;
     thread_calls := thread_calls app ++ [thread_stop; thread_wait] |}.

Definition show_error (app : TranscriptionApp) (error_message : string)
  : TranscriptionApp :=
  stop_transcription
    {| is_transcribing := is_transcribing app;
       toggle_button := toggle_button app;
       status_label := ("Status: Error - " ++ error_message)%string;
       device_combo_enabled := device_combo_enabled app;
       buffer_spin_enabled := buffer_spin_enabled app;
       text_display := text_display app;
       thread_calls := thread_calls app |}.

(** [currentIndex] and [currentText] are those of [device_combo]. *)
Definition start_transcription (app : TranscriptionApp)
  (currentIndex : Z) (currentText : string) : TranscriptionApp :=
  if currentIndex =? -1 then show_error app "Please select an input device"
  else
    {| is_transcribing := true;
       toggle_button := "Stop Transcription";
       status_label :=
         ("Status: Transcribing using " ++ currentText ++ "...")%string;
       device_combo_enabled := false;
       buffer_spin_enabled := false;
       text_display := text_display app;
       thread_calls := thread_calls app ++ [thread_start] |}.

Definition toggle_transcription (app : TranscriptionApp)
  (currentIndex : Z) (currentText : string) : TranscriptionApp :=
  if negb (is_transcribing app)
  then start_transcription app currentIndex currentText
  else stop_transcription app.

Definition update_transcription (app : TranscriptionApp) (text : string)
  : TranscriptionApp :=
  {| is_transcribing := is_transcribing app;
     toggle_button := toggle_button app;
     status_label := status_label app;
     device_combo_enabled := device_combo_enabled app;
     buffer_spin_enabled := buffer_spin_enabled app;
     text_display := text_display app ++ [text];
     thread_calls := thread_calls app |}.

Definition clear_text (app : TranscriptionApp) : TranscriptionApp :=
  {| is_transcribing := is_transcribing app;
     toggle_button := toggle_button app;
     status_label := status_label app;
     device_combo_enabled := device_combo_enabled app;
     buffer_spin_enabled := buffer_spin_enabled app;
     text_display := [];
     thread_calls := thread_calls app |}.

Definition closeEvent (app : TranscriptionApp) : TranscriptionApp :=
  stop_transcription app.

(** What reaches the window: a click on the button, a signal of the
    thread, a click on "Clear Text", the closing of the window. *)
Inductive app_event : Type :=
| clicked_toggle (currentIndex : Z) (currentText : string)
| signalled (s : signal_sent)
| clicked_clear
| closed.

Definition handle (app : TranscriptionApp) (ev : app_event)
  : TranscriptionApp :=
  match ev with
  | clicked_toggle currentIndex currentText =>
    toggle_transcription app currentIndex currentText
  | signalled (transcription_signal text) => update_transcription app text
  | signalled (error_signal message) => show_error app message
  | clicked_clear => clear_text app
  | closed => closeEvent app
  end.

(** ** The capture callback

    [audio_callback] puts the chunk at the end of the queue and asks
    PyAudio to go on; the queue is drained from its head. *)

Definition paContinue : Z := 0.

Definition audio_callback (audio_queue : list array) (in_data : array)
  : list array * (option array * Z) :=
  (audio_queue ++ [in_data], (None, paContinue)).

(** ** Vocabulary of the statements *)

(** Window [k] is classified as speech. *)
Definition speech_at (mask : list bool) (k : Z) : Prop :=
  0 <= k /\ nth (Z.to_nat k) mask false = true.

(** [x <= y] on floats; false when either is [nan]. *)
Definition f_le (x y : float) : bool :=
  match x, y with
  | Some a, Some b => Qle_bool a b
  | _, _ => false
  end.

(** A float that is [nan] or of value zero. *)
Definition nan_or_zero (x : float) : Prop :=
  match x with
  | Some q => (q == 0)%Q
  | None => True
  end.

(** The offsets of all the complete windows of an array: every multiple
    [i] of [window_size] with [i + window_size <= len]. *)
Definition complete_window_offsets (audio_data : array) : list Z :=
  Py.range 0 (Py.len audio_data - window_size + 1) window_size.

(** The detector as the specification words it: the same computation over
    all the complete windows. *)
Definition spec_find_speech_boundaries (audio_data : array) : result (Z * Z) :=
  let energy :=
    map (fun i => Np.mean (Np.abs (Py.slice audio_data i (i + window_size))))
        (complete_window_offsets audio_data) in
  let speech_regions := speech_regions energy in
  if negb (Py.any speech_regions) then
    Ok (0, Py.len audio_data)
  else
    i <- Py.first (Np.where_ speech_regions) ;;
    j <- Py.last (Np.where_ speech_regions) ;;
    let start := i * window_size in
    let end_ := (j + 1) * window_size in
    Ok (Z.max 0 start, Z.min (Py.len audio_data) end_).

(** All the samples of the chunks of a run, in arrival order. *)
Definition received (arrivals : list (list array)) : array :=
  List.concat (map (@List.concat float) arrivals).

(** Each text of the list is absent, lower-cased, from the lower-cased text
    before it; [prev] stands before the first. *)
Fixpoint fresh_chain (lower : string -> string) (prev : string)
  (texts : list string) : Prop :=
  match texts with
  | [] => True
  | text :: rest =>
    Str.contains (lower prev) (lower text) = false /\
    fresh_chain lower text rest
  end.

(** The window shows what it believes: the controls are disabled and the
    button offers to stop exactly while [is_transcribing] holds, and
    [is_transcribing] holds exactly when the last call made on the thread
    is [start()]. *)
Definition consistent (app : TranscriptionApp) : Prop :=
  device_combo_enabled app = negb (is_transcribing app) /\
  buffer_spin_enabled app = negb (is_transcribing app) /\
  toggle_button app
  = (if is_transcribing app then "Stop Transcription"
     else "Start Transcription")%string /\
  (is_transcribing app = true <->
   List.last (thread_calls app) thread_wait = thread_start).

(** The sum of a list of rationals. *)
Definition q_sum (qs : list Q) : Q := fold_right Qplus 0%Q qs.

(** A sample that is a number, not [nan]; the floats of this development
    have no infinity, so such a sample is finite. *)
Definition finite (x : float) : Prop := x <> nan.

(** The larger of two rationals, as [f_max] picks it. *)
Definition q_max (a b : Q) : Q := if Qle_bool a b then b else a.

(** * Properties *)

(** ** Python sequences *)

Module PyFacts.

Lemma len_nonneg {A} (l : list A) : 0 <= Py.len l.
Proof. unfold Py.len. lia. Qed.

Lemma len_app {A} (l r : list A) : Py.len (l ++ r) = Py.len l + Py.len r.
Proof. unfold Py.len. rewrite length_app. lia. Qed.

Lemma len_repeat {A} (x : A) (n : Z) :
  0 <= n -> Py.len (repeat x (Z.to_nat n)) = n.
Proof. intros H. unfold Py.len. rewrite repeat_length. lia. Qed.

Lemma bound_range (n i : Z) : 0 <= n -> 0 <= Py.bound n i <= n.
Proof.
  intros Hn. unfold Py.bound.
  destruct (Z.ltb_spec i 0); lia.
Qed.

Lemma bound_inside (n i : Z) : 0 <= i <= n -> Py.bound n i = i.
Proof.
  intros H. unfold Py.bound.
  destruct (Z.ltb_spec i 0); lia.
Qed.

Lemma slice_to_len {A} (l : list A) (hi : Z) :
  Py.len (Py.slice_to l hi) = Py.bound (Py.len l) hi.
Proof.
  pose proof (bound_range (Py.len l) hi (len_nonneg l)) as Hb.
  unfold Py.slice_to, Py.len in *. rewrite length_firstn. lia.
Qed.

Lemma slice_from_len {A} (l : list A) (lo : Z) :
  Py.len (Py.slice_from l lo) = Py.len l - Py.bound (Py.len l) lo.
Proof.
  pose proof (bound_range (Py.len l) lo (len_nonneg l)) as Hb.
  unfold Py.slice_from, Py.len in *. rewrite length_skipn. lia.
Qed.

Lemma slice_len {A} (l : list A) (lo hi : Z) :
  0 <= lo <= hi -> hi <= Py.len l -> Py.len (Py.slice l lo hi) = hi - lo.
Proof.
  intros H1 H2. unfold Py.slice.
  rewrite !bound_inside by lia.
  unfold Py.len in *. rewrite length_firstn, length_skipn. lia.
Qed.

(** A slice that starts inside the prefix [l[:n]] and ends inside it is the
    same taken from [l]. *)
Lemma slice_of_prefix {A} (l : list A) (n lo hi : Z) :
  0 <= lo <= hi -> hi <= Py.len (Py.slice_to l n) ->
  Py.slice (Py.slice_to l n) lo hi = Py.slice l lo hi.
Proof.
  intros H1 H2.
  pose proof (slice_to_len l n) as Hn.
  pose proof (bound_range (Py.len l) n (len_nonneg l)) as Hb.
  unfold Py.slice. rewrite !bound_inside by lia.
  unfold Py.slice_to in *. set (k := Z.to_nat (Py.bound (Py.len l) n)) in *.
  rewrite skipn_firstn_comm, firstn_firstn.
  f_equal. unfold Py.len in *. rewrite length_firstn in H2. lia.
Qed.

Lemma range_length (stop step : Z) :
  0 < step -> 0 < stop ->
  Z.of_nat (List.length (Py.range 0 stop step)) = (stop + step - 1) / step.
Proof.
  intros Hs Hp. unfold Py.range.
  destruct (Z.leb_spec stop 0); [lia|].
  rewrite length_map, length_seq, Z.sub_0_r.
  apply Z2Nat.id. apply Z.div_pos; lia.
Qed.

Lemma range_empty (stop step : Z) : stop <= 0 -> Py.range 0 stop step = [].
Proof.
  intros H. unfold Py.range. destruct (Z.leb_spec stop 0); [reflexivity|lia].
Qed.

(** The [k]-th element of [range(0, stop, step)] is [k * step], and it is
    below [stop]. *)
Lemma range_nth (stop step : Z) (k : nat) :
  0 < step -> (k < List.length (Py.range 0 stop step))%nat ->
  nth k (Py.range 0 stop step) 0 = Z.of_nat k * step /\
  Z.of_nat k * step < stop.
Proof.
  intros Hs Hk. unfold Py.range in *.
  destruct (Z.leb_spec stop 0); [simpl in Hk; lia|].
  rewrite length_map, length_seq in Hk.
  split.
  - set (f := fun k : nat => 0 + Z.of_nat k * step).
    rewrite nth_indep with (d' := f 0%nat)
      by (rewrite length_map, length_seq; exact Hk).
    rewrite map_nth, seq_nth by assumption. unfold f. simpl. lia.
  - rewrite Z.sub_0_r in Hk.
    assert (Hq : Z.of_nat k < (stop + step - 1) / step) by lia.
    assert (Hm : step * ((stop + step - 1) / step) <= stop + step - 1)
      by (apply Z.mul_div_le; lia).
    nia.
Qed.

Lemma range_In (stop step i : Z) :
  0 < step -> In i (Py.range 0 stop step) ->
  exists k, 0 <= k /\ i = k * step /\ i < stop.
Proof.
  intros Hs Hi. apply In_nth with (d := 0) in Hi as [k [Hk <-]].
  destruct (range_nth stop step k Hs Hk) as [-> Hlt].
  exists (Z.of_nat k). repeat split; [lia|exact Hlt].
Qed.

(** A slice that ends inside the first part of a concatenation does not
    see the second part. *)
Lemma slice_app_left {A} (l r : list A) (lo hi : Z) :
  0 <= lo <= hi -> hi <= Py.len l -> Py.slice (l ++ r) lo hi = Py.slice l lo hi.
Proof.
  intros H1 H2. pose proof (len_nonneg r). unfold Py.slice.
  rewrite len_app, !bound_inside by lia.
  rewrite skipn_app, firstn_app, length_skipn.
  unfold Py.len in *.
  replace (Z.to_nat (hi - lo) - (List.length l - Z.to_nat lo))%nat with 0%nat
    by lia.
  simpl. apply app_nil_r.
Qed.

Lemma first_ok {A} (l : list A) : l <> [] -> exists x, Py.first l = Ok x.
Proof. destruct l; [congruence|]. intros _. eexists. reflexivity. Qed.

Lemma last_ok {A} (l : list A) : l <> [] -> exists x, Py.last l = Ok x.
Proof.
  induction l as [|x r IH]; [congruence|]. intros _.
  destruct r as [|y r']; [eexists; reflexivity|].
  destruct IH as [z Hz]; [discriminate|]. exists z. exact Hz.
Qed.

Lemma first_In {A} (l : list A) (x : A) : Py.first l = Ok x -> In x l.
Proof. destruct l; simpl; [discriminate|]. intros [= ->]. now left. Qed.

Lemma last_In {A} (l : list A) (x : A) : Py.last l = Ok x -> In x l.
Proof.
  induction l as [|y r IH]; simpl; [discriminate|].
  destruct r as [|z r']; [intros [= ->]; now left|].
  intros H. right. apply IH, H.
Qed.

Lemma slice_whole {A} (l : list A) (n : Z) :
  Py.len l = n -> Py.slice l 0 n = l.
Proof.
  intros <-. pose proof (len_nonneg l). unfold Py.slice.
  rewrite !bound_inside by lia. rewrite Z.sub_0_r.
  unfold Py.len. rewrite Nat2Z.id. simpl. apply firstn_all.
Qed.

Lemma Forall_slice {A} (P : A -> Prop) (l : list A) (lo hi : Z) :
  Forall P l -> Forall P (Py.slice l lo hi).
Proof.
  intros H. unfold Py.slice.
  set (a := Z.to_nat _). set (b := Z.to_nat _).
  rewrite <- (firstn_skipn b l) in H. apply Forall_app in H as [_ H].
  rewrite <- (firstn_skipn a (skipn b l)) in H. now apply Forall_app in H.
Qed.

Lemma Forall_slice_to {A} (P : A -> Prop) (l : list A) (hi : Z) :
  Forall P l -> Forall P (Py.slice_to l hi).
Proof.
  intros H. unfold Py.slice_to. set (a := Z.to_nat _).
  rewrite <- (firstn_skipn a l) in H. now apply Forall_app in H.
Qed.

End PyFacts.

(** ** The voice activity detector *)

Module Vad.

Import PyFacts.

Lemma nth_true_lt (mask : list bool) (n : nat) :
  nth n mask false = true -> (n < List.length mask)%nat.
Proof.
  intros H. destruct (Nat.lt_ge_cases n (List.length mask)) as [|Hge]; [assumption|].
  rewrite nth_overflow in H by exact Hge. discriminate.
Qed.

Lemma where_from_In (mask : list bool) (i k : Z) :
  In k (where_from i mask) <->
  i <= k /\ nth (Z.to_nat (k - i)) mask false = true.
Proof.
  revert i. induction mask as [|b r IH]; intros i; simpl.
  - split; [tauto|]. intros [_ H]. destruct (Z.to_nat (k - i)); discriminate.
  - rewrite in_app_iff, IH. split.
    + intros [H|[H1 H2]].
      * destruct b; simpl in H; [|tauto]. destruct H as [->|[]].
        rewrite Z.sub_diag. simpl. split; [lia|reflexivity].
      * split; [lia|].
        replace (Z.to_nat (k - i)) with (S (Z.to_nat (k - (i + 1)))) by lia.
        exact H2.
    + intros [H1 H2]. destruct (Z.eq_dec k i) as [->|Hne].
      * rewrite Z.sub_diag in H2. simpl in H2. subst b. left. now left.
      * right. split; [lia|].
        replace (Z.to_nat (k - i)) with (S (Z.to_nat (k - (i + 1)))) in H2 by lia.
        exact H2.
Qed.

Lemma where_In (mask : list bool) (k : Z) :
  In k (where_ mask) <-> speech_at mask k.
Proof.
  unfold where_, speech_at. rewrite where_from_In, Z.sub_0_r. reflexivity.
Qed.

Lemma speech_at_lt (mask : list bool) (k : Z) :
  speech_at mask k -> 0 <= k < Py.len mask.
Proof.
  intros [H0 H]. apply nth_true_lt in H. unfold Py.len. lia.
Qed.

(** [np.where] lists the indices in ascending order: its first element is
    the least one and its last element the greatest. *)
Lemma where_from_first_least (mask : list bool) (i a k : Z) :
  Py.first (where_from i mask) = Ok a -> In k (where_from i mask) -> a <= k.
Proof.
  revert i. induction mask as [|b r IH]; intros i; simpl; [discriminate|].
  destruct b; simpl.
  - intros [= <-] [->|H]; [lia|]. apply where_from_In in H. lia.
  - apply IH.
Qed.

Lemma where_from_last_greatest (mask : list bool) (i b k : Z) :
  Py.last (where_from i mask) = Ok b -> In k (where_from i mask) -> k <= b.
Proof.
  revert i. induction mask as [|c r IH]; intros i; [discriminate|].
  cbn [where_from]. destruct c; cbn [app].
  - intros Hl Hin. destruct (where_from (i + 1) r) as [|x w] eqn:Ew.
    + simpl in Hl, Hin. injection Hl as <-. destruct Hin as [->|[]]. lia.
    + assert (Hl' : Py.last (x :: w) = Ok b) by exact Hl.
      destruct Hin as [->|Hin].
      * apply PyFacts.last_In in Hl'. rewrite <- Ew in Hl'.
        apply where_from_In in Hl'. lia.
      * rewrite <- Ew in *. eapply IH; eassumption.
  - apply IH.
Qed.

Lemma any_where (mask : list bool) :
  Py.any mask = true -> where_ mask <> [].
Proof.
  unfold Py.any. intros H. apply existsb_exists in H as [b [Hin ->]].
  apply In_nth with (d := false) in Hin as [n [Hn Hb]].
  assert (Hk : In (Z.of_nat n) (where_ mask)).
  { apply where_In. split; [lia|]. now rewrite Nat2Z.id. }
  intros E. rewrite E in Hk. exact Hk.
Qed.

Lemma any_false (mask : list bool) :
  Py.any mask = false <-> forall k, ~ speech_at mask k.
Proof.
  unfold Py.any. split.
  - intros H k [H0 Hk].
    assert (Ht : existsb (fun b => b) mask = true); [|congruence].
    apply existsb_exists. exists true. split; [|reflexivity].
    rewrite <- Hk. apply nth_In. now apply nth_true_lt.
  - intros H. destruct (existsb (fun b => b) mask) eqn:E; [|reflexivity].
    exfalso. apply any_where in E. destruct (where_ mask) as [|k w] eqn:Ew;
      [congruence|].
    apply (H k). apply where_In. rewrite Ew. now left.
Qed.

Lemma speech_regions_length (e : array) :
  List.length (speech_regions e) = List.length e.
Proof. unfold speech_regions. apply length_map. Qed.

Lemma energy_length (audio_data : array) :
  List.length (energy audio_data) = List.length (window_offsets audio_data).
Proof. unfold energy. apply length_map. Qed.

(** Window [k] starts at sample [k * window_size] and ends before the end
    of the array. *)
Lemma window_offsets_nth (audio_data : array) (k : nat) :
  (k < List.length (window_offsets audio_data))%nat ->
  nth k (window_offsets audio_data) 0 = Z.of_nat k * window_size /\
  (Z.of_nat k + 1) * window_size < Py.len audio_data.
Proof.
  intros Hk. unfold window_offsets in *.
  destruct (range_nth _ window_size k ltac:(reflexivity) Hk) as [H1 H2].
  split; [exact H1|]. unfold window_size in *. lia.
Qed.

(** The number of windows taken. *)
Lemma window_count (audio_data : array) :
  Py.len (window_offsets audio_data) =
  if Py.len audio_data <=? window_size then 0
  else (Py.len audio_data - 1) / window_size.
Proof.
  unfold window_offsets. destruct (Z.leb_spec (Py.len audio_data) window_size).
  - rewrite range_empty by lia. reflexivity.
  - unfold Py.len at 1. rewrite range_length by (unfold window_size in *; lia).
    f_equal. lia.
Qed.

(** The region returned when some window is speech. *)
Lemma find_speech_boundaries_speech (audio_data : array) :
  let mask := speech_regions (energy audio_data) in
  Py.any mask = true ->
  exists i j,
    find_speech_boundaries audio_data
      = Ok (i * window_size, (j + 1) * window_size) /\
    speech_at mask i /\ speech_at mask j /\
    (forall k, speech_at mask k -> i <= k <= j) /\
    (j + 1) * window_size < Py.len audio_data.
Proof.
  intros mask Hany.
  pose proof (any_where mask Hany) as Hne.
  destruct (first_ok _ Hne) as [i Hi], (last_ok _ Hne) as [j Hj].
  exists i, j.
  pose proof (proj1 (where_In mask i) (first_In _ _ Hi)) as Si.
  pose proof (proj1 (where_In mask j) (last_In _ _ Hj)) as Sj.
  assert (Hend : (j + 1) * window_size < Py.len audio_data).
  { pose proof (speech_at_lt _ _ Sj) as Hlt. unfold Py.len in Hlt.
    unfold mask in Hlt. rewrite speech_regions_length, energy_length in Hlt.
    destruct (window_offsets_nth audio_data (Z.to_nat j)) as [_ H]; [lia|].
    rewrite Z2Nat.id in H by lia. exact H. }
  repeat split; try (apply Si || apply Sj); try exact Hend.
  - unfold find_speech_boundaries. fold mask. rewrite Hany. simpl negb. cbv iota.
    rewrite Hi, Hj. simpl bind.
    pose proof (speech_at_lt _ _ Si). unfold window_size in *.
    f_equal. f_equal; lia.
  - apply (where_from_first_least mask 0 i k Hi). now apply where_In.
  - apply (where_from_last_greatest mask 0 j k Hj). now apply where_In.
Qed.

(** The region returned when no window is speech. *)
Lemma find_speech_boundaries_silent (audio_data : array) :
  Py.any (speech_regions (energy audio_data)) = false ->
  find_speech_boundaries audio_data = Ok (0, Py.len audio_data).
Proof.
  intros H. unfold find_speech_boundaries. rewrite H. reflexivity.
Qed.

(** The detector never raises, and its region lies inside the array. *)
Lemma find_speech_boundaries_range (audio_data : array) :
  exists start end_,
    find_speech_boundaries audio_data = Ok (start, end_) /\
    0 <= start <= end_ /\ end_ <= Py.len audio_data.
Proof.
  destruct (Py.any (speech_regions (energy audio_data))) eqn:E.
  - destruct (find_speech_boundaries_speech audio_data E)
      as [i [j [Hr [Si [_ [Hij Hend]]]]]].
    exists (i * window_size), ((j + 1) * window_size).
    split; [exact Hr|]. specialize (Hij i Si).
    destruct Si as [Hi _]. unfold window_size in *. lia.
  - exists 0, (Py.len audio_data).
    split; [apply find_speech_boundaries_silent, E|].
    pose proof (len_nonneg audio_data). lia.
Qed.

(** A returned region is the whole array or a whole number of windows. *)
Lemma find_speech_boundaries_extent (audio_data : array) (start end_ : Z) :
  find_speech_boundaries audio_data = Ok (start, end_) ->
  (start = 0 /\ end_ = Py.len audio_data) \/
  exists n, end_ - start = n * window_size.
Proof.
  intros H. destruct (Py.any (speech_regions (energy audio_data))) eqn:E.
  - destruct (find_speech_boundaries_speech audio_data E) as [i [j [Hr _]]].
    rewrite Hr in H. injection H as <- <-. right. exists (j + 1 - i). lia.
  - rewrite (find_speech_boundaries_silent _ E) in H. injection H as <- <-.
    now left.
Qed.

Lemma f_le_not_gt (x y : float) : f_le x y = true -> f_gt x y = false.
Proof.
  destruct x, y; simpl; try discriminate. intros ->. reflexivity.
Qed.

(** When the length is a multiple of [window_size], the detector takes one
    window fewer than the array has; otherwise it takes them all. *)
Lemma window_offsets_multiple (audio_data : array) (n : Z) :
  1 <= n -> Py.len audio_data = n * window_size ->
  Py.len (window_offsets audio_data) = n - 1 /\
  Py.len (complete_window_offsets audio_data) = n.
Proof.
  intros Hn Hl. unfold window_offsets, complete_window_offsets.
  rewrite Hl. unfold window_size. split.
  - destruct (Z.eq_dec n 1) as [->|Hne]; [reflexivity|].
    unfold Py.len. rewrite range_length by lia.
    Z.to_euclidean_division_equations. lia.
  - unfold Py.len. rewrite range_length by lia.
    Z.to_euclidean_division_equations. lia.
Qed.

Lemma window_offsets_complete (audio_data : array) :
  Py.len audio_data mod window_size <> 0 ->
  window_offsets audio_data = complete_window_offsets audio_data.
Proof.
  intros Hm. unfold window_offsets, complete_window_offsets, Py.range.
  unfold window_size in *.
  destruct (Z.leb_spec (Py.len audio_data - 1024) 0),
           (Z.leb_spec (Py.len audio_data - 1024 + 1) 0); try reflexivity.
  - assert (Py.len audio_data = 1024) as E by lia. rewrite E in Hm.
    now contradiction Hm.
  - lia.
  - do 2 f_equal. f_equal. Z.to_euclidean_division_equations. lia.
Qed.

(** *** Silence

    An array of zeros has windows of energy zero, none of which exceeds the
    threshold. *)

Lemma sum_zero (a : array) :
  Forall nan_or_zero a -> nan_or_zero (Np.sum a).
Proof.
  induction 1 as [|x r Hx _ IH]; simpl; [reflexivity|].
  destruct x as [q|], (Np.sum r) as [s|]; simpl in *; try exact I.
  rewrite Hx, IH. reflexivity.
Qed.

Lemma f_div_zero (x y : float) : nan_or_zero x -> nan_or_zero (f_div x y).
Proof.
  destruct x as [a|], y as [b|]; simpl; try (intros; exact I).
  intros Ha. destruct (Qeq_bool b 0); simpl; [exact I|].
  rewrite Ha. unfold Qdiv. apply Qmult_0_l.
Qed.

Lemma mean_zero (a : array) : Forall nan_or_zero a -> nan_or_zero (Np.mean a).
Proof.
  intros H. destruct a as [|x r]; [exact I|].
  unfold Np.mean. apply f_div_zero, sum_zero, H.
Qed.

Lemma abs_zero (a : array) :
  Forall nan_or_zero a -> Forall nan_or_zero (Np.abs a).
Proof.
  unfold Np.abs. induction 1 as [|x r Hx _ IH]; simpl; constructor;
    [|exact IH].
  destruct x as [q|]; simpl in *; [|exact I]. rewrite Hx. reflexivity.
Qed.

Lemma energy_zero (audio_data : array) :
  Forall nan_or_zero audio_data -> Forall nan_or_zero (energy audio_data).
Proof.
  intros H. unfold energy. apply Forall_map, Forall_forall. intros i _.
  apply mean_zero, abs_zero, Forall_slice, H.
Qed.

Lemma speech_regions_zero (e : array) :
  Forall nan_or_zero e -> Py.any (speech_regions e) = false.
Proof.
  intros H. unfold Py.any, speech_regions.
  destruct (existsb _ _) eqn:E; [|reflexivity].
  apply existsb_exists in E as [b [Hin ->]].
  apply in_map_iff in Hin as [x [Hgt Hx]].
  pose proof (proj1 (Forall_forall _ _) H x Hx) as Hz.
  pose proof (mean_zero e H) as Hm.
  unfold threshold in Hgt.
  destruct x as [q|], (Np.mean e) as [m|]; simpl in *; try discriminate.
  apply negb_true_iff in Hgt.
  assert (Hle : Qle_bool q (m * (1 # 2)) = true); [|congruence].
  apply Qle_bool_iff. rewrite Hz, Hm. discriminate.
Qed.

Lemma silence_has_no_speech (audio_data : array) :
  Forall nan_or_zero audio_data ->
  Py.any (speech_regions (energy audio_data)) = false.
Proof. intros H. apply speech_regions_zero, energy_zero, H. Qed.

(** Whatever the last complete window of an array holds, the detector does
    not see it when the length is a multiple of [window_size]: if the rest
    is silent, the whole array is returned. *)
Lemma last_window_ignored (z tail : array) (n : Z) :
  1 <= n -> Forall nan_or_zero z ->
  Py.len z = n * window_size -> Py.len tail = window_size ->
  Forall nan_or_zero (energy (z ++ tail)) /\
  find_speech_boundaries (z ++ tail) = Ok (0, (n + 1) * window_size).
Proof.
  intros Hn Hz Hlz Hlt.
  assert (He : Forall nan_or_zero (energy (z ++ tail))).
  { unfold energy. apply Forall_map, Forall_forall. intros i Hi.
    unfold window_offsets in Hi. rewrite len_app, Hlz, Hlt in Hi.
    apply range_In in Hi as [k [Hk [-> Hlt']]]; [|reflexivity].
    rewrite slice_app_left by (unfold window_size in *; lia).
    apply mean_zero, abs_zero, Forall_slice, Hz. }
  split; [exact He|].
  rewrite (find_speech_boundaries_silent _ (speech_regions_zero _ He)).
  rewrite len_app, Hlz, Hlt. do 2 f_equal. lia.
Qed.

Lemma repeat_zero (n : nat) : Forall nan_or_zero (repeat (fin 0) n).
Proof. apply Forall_forall. intros x Hx. apply repeat_spec in Hx as ->. reflexivity. Qed.

End Vad.

(** ** Peak normalisation and padding *)

Module Extract.

Import PyFacts.

Lemma q_max_ub (a b : Q) : (a <= q_max a b /\ b <= q_max a b)%Q.
Proof.
  unfold q_max. destruct (Qle_bool a b) eqn:E.
  - apply Qle_bool_iff in E. split; [exact E|apply Qle_refl].
  - split; [apply Qle_refl|].
    destruct (Qlt_le_dec a b) as [Hlt|Hle]; [|exact Hle].
    apply Qlt_le_weak, Qle_bool_iff in Hlt. congruence.
Qed.

Lemma q_max_pick (a b : Q) : q_max a b = a \/ q_max a b = b.
Proof. unfold q_max. destruct (Qle_bool a b); auto. Qed.

(** The running maximum bounds every element and is one of them. *)
Lemma fold_q_max (qs : list Q) (q : Q) :
  let m := fold_left q_max qs q in
  (forall x, In x (q :: qs) -> (x <= m)%Q) /\ In m (q :: qs).
Proof.
  revert q. induction qs as [|y r IH]; intros q; simpl.
  - split; [|now left]. intros x [->|[]]. apply Qle_refl.
  - destruct (IH (q_max q y)) as [Hub Hin]. simpl in Hub, Hin.
    destruct (q_max_ub q y) as [Hq Hy]. split.
    + intros x [->|[->|Hx]].
      * eapply Qle_trans; [exact Hq|]. apply Hub. now left.
      * eapply Qle_trans; [exact Hy|]. apply Hub. now left.
      * apply Hub. now right.
    + destruct Hin as [Hm|Hm]; [|right; right; exact Hm].
      destruct (q_max_pick q y) as [E|E].
      * left. transitivity (q_max q y); [symmetry; exact E|exact Hm].
      * right. left. transitivity (q_max q y); [symmetry; exact E|exact Hm].
Qed.

(** A maximum that is not [nan] comes from an array without [nan]. *)
Lemma fold_f_max_fin (r : array) (x : float) (p : Q) :
  fold_left f_max r x = Some p ->
  exists q qs, x = Some q /\ r = map Some qs /\ p = fold_left q_max qs q.
Proof.
  revert x. induction r as [|y r IH]; intros x; simpl.
  - intros ->. exists p, []. auto.
  - intros H. destruct (IH _ H) as [q [qs [Hx [Hr Hp]]]].
    destruct x as [a|], y as [b|]; simpl in Hx; try discriminate.
    injection Hx as <-. exists a, (b :: qs). subst r. simpl. auto.
Qed.

Lemma max_fin (qs : list Q) (q : Q) :
  Np.max (Some q :: map Some qs) = Ok (Some (fold_left q_max qs q)).
Proof.
  simpl. f_equal. revert q. induction qs as [|y r IH]; intros q; simpl.
  - reflexivity.
  - apply IH.
Qed.

Lemma max_ok (a : array) : a <> [] -> exists m, Np.max a = Ok m.
Proof. destruct a; [congruence|]. intros _. eexists. reflexivity. Qed.

Lemma abs_fin (qs : list Q) : Np.abs (map Some qs) = map Some (map Qabs qs).
Proof. unfold Np.abs. rewrite !map_map. reflexivity. Qed.

Lemma abs_fin_inv (a : array) (qs : list Q) :
  Np.abs a = map Some qs -> exists xs, a = map Some xs /\ qs = map Qabs xs.
Proof.
  revert qs. induction a as [|x r IH]; intros [|q qs]; simpl; try discriminate.
  - intros _. exists []. auto.
  - intros [= Hx Hr]. destruct (IH _ Hr) as [xs [-> ->]].
    destruct x as [a|]; [|discriminate]. injection Hx as <-.
    exists (a :: xs). auto.
Qed.

Lemma div_fin (xs : list Q) (p : Q) :
  (0 < p)%Q ->
  Np.div (map Some xs) (Some p) = map Some (map (fun x => x / p)%Q xs).
Proof.
  intros Hp. unfold Np.div. rewrite !map_map. apply map_ext. intros x. simpl.
  destruct (Qeq_bool p 0) eqn:E; [|reflexivity].
  apply Qeq_bool_iff in E. rewrite E in Hp. now apply Qlt_irrefl in Hp.
Qed.

Lemma abs_div_fin (xs : list Q) (p : Q) :
  (0 < p)%Q ->
  Np.abs (Np.div (map Some xs) (Some p))
  = map Some (map (fun x => Qabs (x / p)) xs).
Proof.
  intros Hp. rewrite div_fin by exact Hp. unfold Np.abs.
  rewrite !map_map. reflexivity.
Qed.

Lemma Qabs_div_pos (x p : Q) : (0 < p -> Qabs (x / p) == Qabs x / p)%Q.
Proof.
  intros Hp. unfold Qdiv. rewrite Qabs_Qmult.
  rewrite (Qabs_pos (/ p)); [reflexivity|].
  apply Qlt_le_weak, Qinv_lt_0_compat, Hp.
Qed.

Lemma f_gt_fin (x : float) (q : Q) :
  f_gt x (fin q) = true -> exists p, x = Some p /\ (q < p)%Q.
Proof.
  destruct x as [p|]; simpl; [|discriminate]. intros H. exists p. split; [reflexivity|].
  apply negb_true_iff in H. apply Qnot_le_lt. intros Hle.
  apply Qle_bool_iff in Hle. congruence.
Qed.

(** Dividing an array by its strictly positive peak leaves a peak of one. *)
Lemma max_abs_div_peak (a : array) (peak : float) :
  Np.max (Np.abs a) = Ok peak -> f_gt peak (fin 0) = true ->
  exists m, Np.max (Np.abs (Np.div a peak)) = Ok (fin m) /\ (m == 1)%Q.
Proof.
  intros Hmax Hgt. destruct (f_gt_fin _ _ Hgt) as [p [-> Hp]].
  destruct (Np.abs a) as [|y r] eqn:Ea; [discriminate|].
  simpl in Hmax. injection Hmax as Hmax.
  destruct (fold_f_max_fin _ _ _ Hmax) as [q [qs [-> [-> Hpeak]]]].
  destruct (abs_fin_inv a (q :: qs) Ea) as [xs [-> Hxs]].
  destruct xs as [|x0 xs]; [discriminate|]. simpl in Hxs. injection Hxs as -> ->.
  pose proof (fold_q_max (map Qabs xs) (Qabs x0)) as [Hub Hin].
  rewrite <- Hpeak in Hub, Hin.
  rewrite abs_div_fin by exact Hp.
  remember (fun x : Q => Qabs (x / p)) as g eqn:Hg.
  assert (Hgx : forall x, (g x == Qabs x / p)%Q).
  { intros x. subst g. apply Qabs_div_pos, Hp. }
  clear Hg. cbn [map]. rewrite max_fin.
  pose proof (fold_q_max (map g xs) (g x0)) as [Hub' Hin'].
  exists (fold_left q_max (map g xs) (g x0)). split; [reflexivity|].
  set (m := fold_left q_max (map g xs) (g x0)) in *.
  change (g x0 :: map g xs) with (map g (x0 :: xs)) in Hub', Hin'.
  change (Qabs x0 :: map Qabs xs) with (map Qabs (x0 :: xs)) in Hub, Hin.
  clearbody m. apply Qle_antisym.
  - apply in_map_iff in Hin' as [x [<- Hx]]. rewrite Hgx.
    apply Qle_shift_div_r; [exact Hp|]. rewrite Qmult_1_l.
    apply Hub. apply in_map, Hx.
  - apply in_map_iff in Hin as [x [Hxp Hx]].
    apply Qle_trans with (g x); [|apply Hub'; apply in_map, Hx].
    rewrite Hgx, Hxp.
    apply Qle_shift_div_l; [exact Hp|]. rewrite Qmult_1_l. apply Qle_refl.
Qed.

Lemma div_length (a : array) (d : float) :
  List.length (Np.div a d) = List.length a.
Proof. unfold Np.div. apply length_map. Qed.

Lemma normalize_cases (s : array) :
  s <> [] ->
  exists peak body,
    Np.max (Np.abs s) = Ok peak /\ normalize s = Ok body /\
    body = (if f_gt peak (fin 0) then Np.div s peak else s) /\
    List.length body = List.length s.
Proof.
  intros Hs. destruct (max_ok (Np.abs s)) as [peak Hp].
  { destruct s; [congruence|discriminate]. }
  exists peak. eexists. split; [exact Hp|]. unfold normalize. rewrite Hp. simpl.
  split; [reflexivity|]. split; [reflexivity|].
  destruct (f_gt peak (fin 0)); [apply div_length|reflexivity].
Qed.

(** The gate of line 110. *)
Lemma extract_segment_none (audio_buffer : array) (start end_ : Z) :
  extract_segment audio_buffer start end_ = Ok None <->
  end_ - start <= SAMPLE_RATE.
Proof.
  unfold extract_segment. destruct (Z.gtb_spec (end_ - start) SAMPLE_RATE).
  - split; [|lia]. destruct (normalize _); discriminate.
  - split; [lia|reflexivity].
Qed.

Lemma extract_segment_some (audio_buffer : array) (start end_ : Z) (seg : array) :
  extract_segment audio_buffer start end_ = Ok (Some seg) ->
  SAMPLE_RATE < end_ - start /\
  exists body,
    normalize (Py.slice audio_buffer start end_) = Ok body /\
    seg = Np.pad body SAMPLE_RATE.
Proof.
  unfold extract_segment. destruct (Z.gtb_spec (end_ - start) SAMPLE_RATE);
    [|discriminate].
  destruct (normalize _) as [body|e]; simpl; [|discriminate].
  intros [= <-]. split; [lia|]. exists body. auto.
Qed.

(** A region of more than one second inside the buffer is always
    extracted. *)
Lemma extract_segment_in_range (audio_buffer : array) (start end_ : Z) :
  0 <= start -> end_ <= Py.len audio_buffer -> SAMPLE_RATE < end_ - start ->
  exists body,
    normalize (Py.slice audio_buffer start end_) = Ok body /\
    Py.len body = end_ - start /\
    extract_segment audio_buffer start end_ = Ok (Some (Np.pad body SAMPLE_RATE)).
Proof.
  intros H0 H1 H2.
  unfold SAMPLE_RATE in *.
  assert (Hl : Py.len (Py.slice audio_buffer start end_) = end_ - start)
    by (apply slice_len; lia).
  destruct (normalize_cases (Py.slice audio_buffer start end_))
    as [peak [body [_ [Hn [_ Hlen]]]]].
  { intros E. rewrite E in Hl. unfold Py.len in Hl. simpl in Hl. lia. }
  exists body. split; [exact Hn|]. split.
  - unfold Py.len in *. rewrite Hlen. exact Hl.
  - unfold extract_segment, SAMPLE_RATE.
    destruct (Z.gtb_spec (end_ - start) 16000); [|lia].
    rewrite Hn. reflexivity.
Qed.

(** [seg[:-n]] of a padded array is the array before the padding. *)
Lemma pad_strip (body : array) (n : Z) :
  0 < n -> Py.slice_to (Np.pad body n) (- n) = body.
Proof.
  intros Hn. unfold Py.slice_to, Np.pad.
  assert (Hl : Py.len (body ++ repeat (fin 0) (Z.to_nat n)) = Py.len body + n).
  { rewrite len_app, len_repeat by lia. reflexivity. }
  rewrite Hl. unfold Py.bound. destruct (Z.ltb_spec (- n) 0); [|lia].
  pose proof (len_nonneg body).
  replace (Z.max 0 (- n + (Py.len body + n))) with (Py.len body) by lia.
  unfold Py.len. rewrite Nat2Z.id, firstn_app, firstn_all, Nat.sub_diag.
  simpl. apply app_nil_r.
Qed.

Lemma max_repeat (q : Q) (n : nat) :
  n <> 0%nat -> Np.max (repeat (fin q) n) = Ok (fin q).
Proof.
  destruct n as [|n]; [congruence|]. intros _. simpl. f_equal.
  induction n as [|n IH]; simpl; [reflexivity|].
  destruct (Qle_bool q q); exact IH.
Qed.

Lemma abs_repeat (x : float) (n : nat) :
  Np.abs (repeat x n) = repeat (f_abs x) n.
Proof. unfold Np.abs. apply map_repeat. Qed.

End Extract.

(** ** One iteration *)

Module Cycle.

Import PyFacts.

Section Facts.

Variable transcribe : array -> result string.
Variable strip : string -> string.
Variable lower : string -> string.

Lemma slice_to_prefix {A} (l : list A) (n : Z) :
  Py.slice l 0 n = Py.slice_to l n.
Proof.
  unfold Py.slice, Py.slice_to.
  rewrite (bound_inside _ 0) by (pose proof (len_nonneg l); lia).
  rewrite Z.sub_0_r. reflexivity.
Qed.

Lemma prefix_len (audio_buffer : array) (n : Z) :
  0 <= n <= Py.len audio_buffer -> Py.len (Py.slice_to audio_buffer n) = n.
Proof. intros H. rewrite slice_to_len. now apply bound_inside. Qed.

Lemma prefix_le (audio_buffer : array) (n : Z) :
  Py.len (Py.slice_to audio_buffer n) <= Py.len audio_buffer.
Proof.
  rewrite slice_to_len.
  pose proof (bound_range (Py.len audio_buffer) n (len_nonneg _)). lia.
Qed.

(** What an iteration does once the buffer holds [MIN_SAMPLES] samples:
    the detector returns a region inside the evaluated prefix; a region of
    at most one second is skipped, a longer one is normalised, padded and
    transcribed; the buffer is cut at [MIN_SAMPLES - SAMPLE_RATE] unless
    the transcription raises. *)
Lemma process_cases (self : TranscriptionThread) (st : locals) :
  MIN_SAMPLES self <= Py.len (audio_buffer st) ->
  let prefix := Py.slice_to (audio_buffer st) (MIN_SAMPLES self) in
  let kept := Py.slice_from (audio_buffer st) (MIN_SAMPLES self - SAMPLE_RATE) in
  exists start end_,
    find_speech_boundaries prefix = Ok (start, end_) /\
    0 <= start <= end_ /\ end_ <= Py.len prefix /\
    ((end_ - start <= SAMPLE_RATE /\
      process transcribe strip lower self st
      = {| transcribed := []; emitted := [];
           next := Ok {| audio_buffer := kept;
                         last_transcription := last_transcription st |} |})
     \/
     (SAMPLE_RATE < end_ - start /\
      exists body,
        normalize (Py.slice (audio_buffer st) start end_) = Ok body /\
        Py.len body = end_ - start /\
        process transcribe strip lower self st
        = match transcribe (Np.pad body SAMPLE_RATE) with
          | Raise e =>
            {| transcribed := [Np.pad body SAMPLE_RATE]; emitted := [];
               next := Raise e |}
          | Ok text =>
            let d := dedup_filter lower (strip text) (last_transcription st) in
            {| transcribed := [Np.pad body SAMPLE_RATE];
               emitted := signal (fst d);
               next := Ok {| audio_buffer := kept;
                             last_transcription := snd d |} |}
          end)).
Proof.
  intros Hmin prefix kept.
  destruct (Vad.find_speech_boundaries_range prefix)
    as [start [end_ [Hr [Hse Hend]]]].
  exists start, end_. split; [exact Hr|]. split; [exact Hse|].
  split; [exact Hend|].
  pose proof (prefix_le (audio_buffer st) (MIN_SAMPLES self)) as Hle.
  fold prefix in Hle.
  unfold process. rewrite Z.geb_leb.
  destruct (Z.leb_spec (MIN_SAMPLES self) (Py.len (audio_buffer st))); [|lia].
  fold prefix. rewrite Hr. fold kept.
  destruct (Z_le_gt_dec (end_ - start) SAMPLE_RATE) as [Hshort|Hlong].
  - left. split; [exact Hshort|].
    rewrite (proj2 (Extract.extract_segment_none _ _ _) Hshort). reflexivity.
  - right. split; [lia|].
    destruct (Extract.extract_segment_in_range (audio_buffer st) start end_)
      as [body [Hn [Hl He]]]; try lia.
    exists body. split; [exact Hn|]. split; [exact Hl|].
    rewrite He. destruct (transcribe _) as [text|e]; [|reflexivity].
    cbv zeta. destruct (dedup_filter _ _ _). reflexivity.
Qed.

(** Below [MIN_SAMPLES] an iteration does nothing. *)
Lemma process_short (self : TranscriptionThread) (st : locals) :
  Py.len (audio_buffer st) < MIN_SAMPLES self ->
  process transcribe strip lower self st
  = {| transcribed := []; emitted := []; next := Ok st |}.
Proof.
  intros H. unfold process. rewrite Z.geb_leb.
  destruct (Z.leb_spec (MIN_SAMPLES self) (Py.len (audio_buffer st))); [lia|].
  reflexivity.
Qed.

(** The part of the buffer an iteration keeps. *)
Lemma kept_len (self : TranscriptionThread) (audio_buffer : array) :
  1 <= buffer_size_seconds self ->
  MIN_SAMPLES self <= Py.len audio_buffer ->
  Py.slice_from audio_buffer (MIN_SAMPLES self - SAMPLE_RATE)
  = skipn (Z.to_nat (MIN_SAMPLES self - SAMPLE_RATE)) audio_buffer /\
  Py.len (Py.slice_from audio_buffer (MIN_SAMPLES self - SAMPLE_RATE))
  = Py.len audio_buffer - (MIN_SAMPLES self - SAMPLE_RATE).
Proof.
  intros Hb Hmin. unfold MIN_SAMPLES, SAMPLE_RATE in *.
  split.
  - unfold Py.slice_from. rewrite bound_inside by lia. reflexivity.
  - rewrite slice_from_len, bound_inside by lia. reflexivity.
Qed.

(** The regions the loop extracts from are never exactly one second long:
    they are the whole prefix or a whole number of windows. *)
Lemma region_never_one_second (self : TranscriptionThread) (st : locals)
  (start end_ : Z) :
  2 <= buffer_size_seconds self ->
  MIN_SAMPLES self <= Py.len (audio_buffer st) ->
  find_speech_boundaries (Py.slice_to (audio_buffer st) (MIN_SAMPLES self))
  = Ok (start, end_) ->
  end_ - start <> SAMPLE_RATE.
Proof.
  intros Hb Hmin Hr.
  apply Vad.find_speech_boundaries_extent in Hr as [[-> ->]|[n Hn]].
  - rewrite prefix_len by (unfold MIN_SAMPLES, SAMPLE_RATE in *; lia).
    unfold MIN_SAMPLES, SAMPLE_RATE. lia.
  - unfold window_size, SAMPLE_RATE in *. lia.
Qed.

End Facts.

(** The buffer size is 10 seconds at the start and stays within 5 to 30. *)
Lemma set_buffer_size_clamped (self : TranscriptionThread) (seconds : Z) :
  5 <= buffer_size_seconds (set_buffer_size self seconds) <= 30.
Proof. unfold set_buffer_size. simpl. lia. Qed.

Lemma init_buffer_size : buffer_size_seconds init = 10.
Proof. reflexivity. Qed.

(** With a buffer of 8, 16 or 24 seconds the evaluated prefix is a whole
    number of windows. *)
Lemma eight_second_prefix :
  MIN_SAMPLES (set_buffer_size init 8) = 125 * window_size.
Proof. reflexivity. Qed.

(** With 8 seconds the last 1024 samples of the evaluated prefix are not
    examined: a prefix that is silent but for them is returned whole. *)
Lemma eight_second_prefix_last_window :
  find_speech_boundaries
    (repeat (fin 0) (Z.to_nat 126976) ++ repeat (fin 1) (Z.to_nat 1024))
  = Ok (0, MIN_SAMPLES (set_buffer_size init 8)).
Proof.
  assert (Hz : Py.len (repeat (fin 0) (Z.to_nat 126976)) = 124 * window_size)
    by (rewrite len_repeat by lia; reflexivity).
  assert (Ht : Py.len (repeat (fin 1) (Z.to_nat 1024)) = window_size)
    by (rewrite len_repeat by lia; reflexivity).
  destruct (Vad.last_window_ignored _ _ 124 ltac:(lia)
              (Vad.repeat_zero _) Hz Ht) as [_ H].
  exact H.
Qed.

End Cycle.

(** ** The substring test *)

Module StrFacts.

Lemma prefix_length (n h : string) :
  String.prefix n h = true -> (String.length n <= String.length h)%nat.
Proof.
  revert h. induction n as [|a n IH]; intros [|b h]; simpl; try lia;
    try discriminate.
  destruct (ascii_dec a b); [|discriminate].
  intros H. apply IH in H. lia.
Qed.

Lemma prefix_append (n h : string) :
  String.prefix n h = true <-> exists s, h = (n ++ s)%string.
Proof.
  revert h. induction n as [|a n IH]; intros h.
  - split; [|destruct h; reflexivity]. intros _. now exists h.
  - destruct h as [|b h]; simpl.
    + split; [discriminate|]. intros [s Hs]. discriminate.
    + destruct (ascii_dec a b) as [->|Hne].
      * rewrite IH. split; intros [s Hs]; exists s; congruence.
      * split; [discriminate|]. intros [s Hs]. congruence.
Qed.

Lemma prefix_same_length (n h : string) :
  String.prefix n h = true -> String.length n = String.length h -> n = h.
Proof.
  revert h. induction n as [|a n IH]; intros [|b h]; simpl;
    try reflexivity; try discriminate.
  destruct (ascii_dec a b) as [->|]; [|discriminate].
  intros H [= Hl]. f_equal. now apply IH.
Qed.

Lemma contains_length (h n : string) :
  Str.contains h n = true -> (String.length n <= String.length h)%nat.
Proof.
  induction h as [|c h IH]; cbn [Str.contains]; rewrite orb_true_iff.
  - intros [H|H]; [|discriminate]. now apply prefix_length in H.
  - intros [H|H]; [now apply prefix_length in H|]. apply IH in H. simpl. lia.
Qed.

Lemma contains_same_length (h n : string) :
  Str.contains h n = true -> String.length n = String.length h -> n = h.
Proof.
  destruct h as [|c h]; cbn [Str.contains]; rewrite orb_true_iff.
  - intros [H|H]; [|discriminate]. now apply prefix_same_length.
  - intros [H|H] Hl; [now apply prefix_same_length|].
    apply contains_length in H. simpl in Hl. lia.
Qed.

(** [contains hay needle] holds exactly when [needle] occurs in [hay]. *)
Lemma contains_spec (h n : string) :
  Str.contains h n = true <-> exists p s, h = (p ++ n ++ s)%string.
Proof.
  induction h as [|c h IH]; cbn [Str.contains]; rewrite orb_true_iff, prefix_append.
  - split.
    + intros [[s Hs]|H]; [|discriminate]. now exists EmptyString, s.
    + intros [p [s H]]. left. destruct p; [|discriminate]. now exists s.
  - rewrite IH. split.
    + intros [[s Hs]|[p [s Hs]]].
      * now exists EmptyString, s.
      * exists (String c p), s. simpl. now rewrite Hs.
    + intros [p [s H]]. destruct p as [|a p].
      * left. now exists s.
      * right. injection H as _ H. now exists p, s.
Qed.

(** Two strings that contain each other are equal. *)
Lemma contains_antisym (a b : string) :
  Str.contains a b = true -> Str.contains b a = true -> a = b.
Proof.
  intros H1 H2. symmetry. apply contains_same_length; [exact H1|].
  apply contains_length in H1, H2. lia.
Qed.

Lemma len_truthy (s : string) : Str.len s > 0 -> Str.truthy s = true.
Proof. destruct s; [unfold Str.len; simpl; lia|reflexivity]. Qed.

End StrFacts.

(** ** The duplicate filter *)

Module Dedup.

Section Facts.

Variable lower : string -> string.

Lemma dedup_filter_cases (transcript last_transcription : string) :
  dedup_filter lower transcript last_transcription =
  if (Str.len transcript >? MIN_PHRASE_LENGTH)
     && negb (Str.contains (lower last_transcription) (lower transcript))
  then (Some transcript, transcript)
  else (None, last_transcription).
Proof.
  unfold dedup_filter.
  destruct (Z.gtb_spec (Str.len transcript) MIN_PHRASE_LENGTH) as [Hl|Hl].
  - rewrite StrFacts.len_truthy by (unfold MIN_PHRASE_LENGTH in Hl; lia).
    simpl. destruct (Str.contains _ _); reflexivity.
  - rewrite andb_false_r. reflexivity.
Qed.

End Facts.

End Dedup.

(** * The claims *)

Section Claims.

Variable transcribe : array -> result string.
Variable strip : string -> string.
Variable lower : string -> string.

(** C1.  When the energy of every analysis window is at or below the
    threshold (half the mean of the window energies), the detector returns
    the region [(0, len(audio_data))]: the whole input. *)
Theorem vad_fail_open (audio_data : array) :
  (forall e, In e (energy audio_data) ->
             f_le e (threshold (energy audio_data)) = true) ->
  find_speech_boundaries audio_data = Ok (0, Py.len audio_data).
Proof.
  intros H. apply Vad.find_speech_boundaries_silent.
  unfold Py.any, speech_regions.
  destruct (existsb _ _) eqn:E; [|reflexivity].
  apply existsb_exists in E as [b [Hin ->]].
  apply in_map_iff in Hin as [e [He Hin]].
  apply H, Vad.f_le_not_gt in Hin. congruence.
Qed.

(** C2.  The duplicate filter emits the candidate exactly when it is longer
    than [MIN_PHRASE_LENGTH] (10) and its lower-cased text does not occur in
    the lower-cased last accepted transcript; what it emits is the
    candidate; the last accepted transcript, empty at the start, becomes
    the candidate exactly on emission. *)
Theorem dedup_filter_emits_iff (transcript last : string) :
  let d := dedup_filter lower transcript last in
  last_transcription start_locals = EmptyString /\
  MIN_PHRASE_LENGTH = 10 /\
  (fst d = Some transcript <->
   Str.len transcript > MIN_PHRASE_LENGTH /\
   Str.contains (lower last) (lower transcript) = false) /\
  (fst d = Some transcript \/ fst d = None) /\
  (fst d = Some transcript -> snd d = transcript) /\
  (fst d = None -> snd d = last).
Proof.
  cbv zeta. rewrite Dedup.dedup_filter_cases.
  split; [reflexivity|]. split; [reflexivity|].
  destruct (Z.gtb_spec (Str.len transcript) MIN_PHRASE_LENGTH) as [Hl|Hl];
    destruct (Str.contains (lower last) (lower transcript)); simpl;
    intuition (try discriminate; try lia).
Qed.

(** C4.  The array of 1024 zeros followed by 1024 ones has two complete
    windows, at offsets 0 and 1024.  The detector takes the first only:
    the second, whose energy is positive, is never evaluated, no window is
    speech, and the whole array is returned; over both windows the region
    would be [(1024, 2048)]. *)
Theorem vad_drops_last_complete_window :
  let audio_data :=
    repeat (fin 0) (Z.to_nat 1024) ++ repeat (fin 1) (Z.to_nat 1024) in
  Py.len audio_data = 2 * window_size /\
  complete_window_offsets audio_data = [0; 1024] /\
  window_offsets audio_data = [0] /\
  f_gt (Np.mean (Np.abs (Py.slice audio_data 1024 2048))) (fin 0) = true /\
  find_speech_boundaries audio_data = Ok (0, 2048) /\
  spec_find_speech_boundaries audio_data = Ok (1024, 2048).
Proof. vm_compute. repeat split. Qed.


(** C9.  On every array, empty and short ones included, the detector
    returns a region and does not raise, and the region [(start, end)]
    satisfies [0 <= start <= end <= len(audio_data)]. *)
Theorem vad_region_in_range (audio_data : array) :
  exists start end_,
    find_speech_boundaries audio_data = Ok (start, end_) /\
    0 <= start <= end_ /\ end_ <= Py.len audio_data.
Proof. exact (Vad.find_speech_boundaries_range audio_data). Qed.

(** C7.  In an emitted segment, the part before the padding,
    [seg[:-SAMPLE_RATE]], is the slice divided by its peak absolute value
    when that peak is strictly positive, and then its own peak absolute
    value is exactly one; otherwise it is the slice itself, unscaled, and
    nothing is divided. *)
Theorem normalized_peak_is_one (audio_buffer : array) (start end_ : Z)
  (seg : array) :
  extract_segment audio_buffer start end_ = Ok (Some seg) ->
  let speech_segment := Py.slice audio_buffer start end_ in
  let body := Py.slice_to seg (- SAMPLE_RATE) in
  exists max_val,
    Np.max (Np.abs speech_segment) = Ok max_val /\
    (f_gt max_val (fin 0) = true ->
     body = Np.div speech_segment max_val /\
     exists m, Np.max (Np.abs body) = Ok (fin m) /\ (m == 1)%Q) /\
    (f_gt max_val (fin 0) = false -> body = speech_segment).
Proof.
  intros H speech_segment body.
  apply Extract.extract_segment_some in H as [_ [b [Hn ->]]].
  unfold body. rewrite Extract.pad_strip by reflexivity.
  fold speech_segment in Hn. unfold normalize in Hn.
  destruct (Np.max (Np.abs speech_segment)) as [max_val|e] eqn:Hmax;
    [|discriminate].
  simpl in Hn. injection Hn as <-. exists max_val. split; [reflexivity|].
  split; intros Hgt; rewrite Hgt.
  - split; [reflexivity|]. now apply Extract.max_abs_div_peak.
  - reflexivity.
Qed.

(** C8.  A segment extracted from a region [start, end) of the buffer is
    the normalised slice followed by exactly [SAMPLE_RATE] zeros; the part
    before the zeros has [end - start] samples, not fewer than
    [SAMPLE_RATE], and the segment has [(end - start) + SAMPLE_RATE]. *)
Theorem segment_is_padded_by_one_second (audio_buffer : array)
  (start end_ : Z) (seg : array) :
  0 <= start -> end_ <= Py.len audio_buffer ->
  extract_segment audio_buffer start end_ = Ok (Some seg) ->
  exists body,
    seg = body ++ repeat (fin 0) (Z.to_nat SAMPLE_RATE) /\
    Py.len body = end_ - start /\
    SAMPLE_RATE <= Py.len body /\
    Py.len seg = (end_ - start) + SAMPLE_RATE.
Proof.
  intros H0 H1 H.
  pose proof (Extract.extract_segment_some _ _ _ _ H) as [Hgate _].
  destruct (Extract.extract_segment_in_range audio_buffer start end_ H0 H1 Hgate)
    as [body [_ [Hl He]]].
  rewrite He in H. injection H as <-. exists body.
  split; [reflexivity|]. split; [exact Hl|]. split; [lia|].
  unfold Np.pad. rewrite PyFacts.len_app, PyFacts.len_repeat, Hl by discriminate.
  reflexivity.
Qed.

(** C5, as amended.  When the buffer holds at least [MIN_SAMPLES] samples,
    an iteration that is not ended by a transcription error drops the
    [MIN_SAMPLES - SAMPLE_RATE] oldest samples and keeps all the others,
    whether or not a segment was extracted: [len(buffer) - (MIN_SAMPLES -
    SAMPLE_RATE)] samples remain, at least [SAMPLE_RATE] of them. *)
Theorem buffer_tail_is_kept (self : TranscriptionThread) (st : locals) :
  1 <= buffer_size_seconds self ->
  MIN_SAMPLES self <= Py.len (audio_buffer st) ->
  let it := process transcribe strip lower self st in
  (exists seg e,
     transcribed it = [seg] /\ transcribe seg = Raise e /\ next it = Raise e)
  \/
  (exists st',
     next it = Ok st' /\
     audio_buffer st'
     = skipn (Z.to_nat (MIN_SAMPLES self - SAMPLE_RATE)) (audio_buffer st) /\
     Py.len (audio_buffer st')
     = Py.len (audio_buffer st) - (MIN_SAMPLES self - SAMPLE_RATE) /\
     SAMPLE_RATE <= Py.len (audio_buffer st')).
Proof.
  intros Hb Hmin it.
  destruct (Cycle.kept_len self (audio_buffer st) Hb Hmin) as [Hk Hl].
  destruct (Cycle.process_cases transcribe strip lower self st Hmin)
    as [start [end_ [_ [_ [_ [[_ Hp]|[_ [body [_ [_ Hp]]]]]]]]]].
  - right. eexists. unfold it. rewrite Hp. simpl.
    split; [reflexivity|]. simpl. split; [exact Hk|]. split; [exact Hl|]. lia.
  - unfold it. rewrite Hp.
    destruct (transcribe (Np.pad body SAMPLE_RATE)) as [text|e] eqn:Et.
    + right. eexists. split; [reflexivity|]. simpl.
      split; [exact Hk|]. split; [exact Hl|]. lia.
    + left. exists (Np.pad body SAMPLE_RATE), e. simpl. auto.
Qed.

(** C6, as amended.  A candidate whose lower-cased text strictly contains
    the lower-cased last accepted transcript is not suppressed for it: the
    filter emits it, and records it, exactly when it is longer than
    [MIN_PHRASE_LENGTH]. *)
Theorem longer_variant_passes_containment (transcript last : string) :
  Str.contains (lower transcript) (lower last) = true ->
  lower transcript <> lower last ->
  dedup_filter lower transcript last
  = if Str.len transcript >? MIN_PHRASE_LENGTH
    then (Some transcript, transcript) else (None, last).
Proof.
  intros Hin Hne. rewrite Dedup.dedup_filter_cases.
  destruct (Str.contains (lower last) (lower transcript)) eqn:E.
  - exfalso. apply Hne. now apply StrFacts.contains_antisym.
  - rewrite andb_true_r. reflexivity.
Qed.

(** C10.  With a buffer size of at least five seconds, when the buffer
    holds [MIN_SAMPLES] samples and no window of the evaluated prefix is
    speech, the detector returns [(0, MIN_SAMPLES)], which is longer than
    one second.  The whole prefix is then normalised (divided by its peak,
    which leaves a peak of one, when that peak is strictly positive, and
    left as it is otherwise), followed by [SAMPLE_RATE] zeros, and handed
    in this form to the transcription. *)
Theorem fail_open_region_is_transcribed (self : TranscriptionThread)
  (st : locals) :
  5 <= buffer_size_seconds self ->
  MIN_SAMPLES self <= Py.len (audio_buffer st) ->
  let prefix := Py.slice_to (audio_buffer st) (MIN_SAMPLES self) in
  Py.any (speech_regions (energy prefix)) = false ->
  exists body max_val,
    find_speech_boundaries prefix = Ok (0, MIN_SAMPLES self) /\
    MIN_SAMPLES self - 0 > SAMPLE_RATE /\
    normalize prefix = Ok body /\
    Np.max (Np.abs prefix) = Ok max_val /\
    (f_gt max_val (fin 0) = true ->
     body = Np.div prefix max_val /\
     exists m, Np.max (Np.abs body) = Ok (fin m) /\ (m == 1)%Q) /\
    (f_gt max_val (fin 0) = false -> body = prefix) /\
    Py.len body = MIN_SAMPLES self /\
    extract_segment (audio_buffer st) 0 (MIN_SAMPLES self)
    = Ok (Some (body ++ repeat (fin 0) (Z.to_nat SAMPLE_RATE))) /\
    transcribed (process transcribe strip lower self st)
    = [body ++ repeat (fin 0) (Z.to_nat SAMPLE_RATE)].
Proof.
  intros Hb Hmin prefix Hsilent.
  assert (Hpos : 0 <= MIN_SAMPLES self <= Py.len (audio_buffer st))
    by (unfold MIN_SAMPLES, SAMPLE_RATE in *; lia).
  pose proof (Cycle.prefix_len _ _ Hpos) as Hlen. fold prefix in Hlen.
  pose proof (Vad.find_speech_boundaries_silent prefix Hsilent) as Hr.
  rewrite Hlen in Hr.
  assert (Hgate : SAMPLE_RATE < MIN_SAMPLES self - 0)
    by (unfold MIN_SAMPLES, SAMPLE_RATE in *; lia).
  destruct (Cycle.process_cases transcribe strip lower self st Hmin)
    as [start [end_ [Hr' [_ [_ Hcases]]]]].
  fold prefix in Hr'. rewrite Hr in Hr'. injection Hr' as <- <-.
  destruct Hcases as [[Hshort _]|[_ [body [Hn [Hlb Hp]]]]]; [lia|].
  rewrite Cycle.slice_to_prefix in Hn. fold prefix in Hn.
  destruct (Extract.normalize_cases prefix)
    as [max_val [body' [Hmax [Hn' [Hbody _]]]]].
  { intros E. rewrite E in Hlen. unfold Py.len in Hlen. simpl in Hlen.
    unfold MIN_SAMPLES, SAMPLE_RATE in *. lia. }
  rewrite Hn in Hn'. injection Hn' as <-.
  exists body, max_val.
  split; [exact Hr|]. split; [lia|]. split; [exact Hn|].
  split; [exact Hmax|]. split; [|split; [|split; [|split]]].
  - intros Hgt. rewrite Hgt in Hbody. split; [exact Hbody|].
    rewrite Hbody. now apply Extract.max_abs_div_peak.
  - intros Hgt. now rewrite Hgt in Hbody.
  - lia.
  - unfold extract_segment.
    destruct (Z.gtb_spec (MIN_SAMPLES self - 0) SAMPLE_RATE); [|lia].
    rewrite Cycle.slice_to_prefix. fold prefix. rewrite Hn. reflexivity.
  - rewrite Hp. destruct (transcribe _); reflexivity.
Qed.

End Claims.

(** * Instances *)

Section Instances.

Local Open Scope string_scope.

(** C1 on 2048 zeros followed by a one: both windows have energy 0, the
    threshold is 0, and the region is [(0, 2049)]. *)
Lemma vad_fail_open_witness :
  let audio_data := (repeat (fin 0) (Z.to_nat 2048) ++ [fin 1])%list in
  (forall e, In e (energy audio_data) ->
             f_le e (threshold (energy audio_data)) = true) /\
  find_speech_boundaries audio_data = Ok (0, 2049).
Proof.
  intros audio_data.
  assert (H : forall e, In e (energy audio_data) ->
                        f_le e (threshold (energy audio_data)) = true).
  { intros e He. vm_compute in He.
    destruct He as [<-|[<-|[]]]; vm_compute; reflexivity. }
  split; [exact H|]. exact (vad_fail_open audio_data H).
Defined.

(** C7 on 16001 samples of value -2, taken whole: the peak is 2, and after
    the division the part before the padding has peak 1. *)
Lemma normalized_peak_is_one_witness :
  let audio_buffer := repeat (fin (-2)) (Z.to_nat 16001) in
  exists seg,
    extract_segment audio_buffer 0 16001 = Ok (Some seg) /\
    exists m,
      Np.max (Np.abs (Py.slice_to seg (- SAMPLE_RATE))) = Ok (fin m) /\
      (m == 1)%Q.
Proof.
  intros audio_buffer.
  assert (Hlen : Py.len audio_buffer = 16001)
    by (apply PyFacts.len_repeat; lia).
  destruct (Extract.extract_segment_in_range audio_buffer 0 16001)
    as [body [_ [_ He]]]; [lia|rewrite Hlen; lia|reflexivity|].
  exists (Np.pad body SAMPLE_RATE). split; [exact He|].
  destruct (normalized_peak_is_one audio_buffer 0 16001 _ He)
    as [max_val [Hmax [Hpos _]]].
  rewrite (PyFacts.slice_whole _ _ Hlen) in Hmax.
  unfold audio_buffer in Hmax. rewrite Extract.abs_repeat in Hmax.
  change (f_abs (fin (-2))) with (fin 2) in Hmax.
  rewrite Extract.max_repeat in Hmax by lia.
  injection Hmax as <-. apply Hpos. reflexivity.
Defined.

(** C8 on the same buffer and region. *)
Lemma segment_is_padded_by_one_second_witness :
  let audio_buffer := repeat (fin (-2)) (Z.to_nat 16001) in
  0 <= 0 /\ 16001 <= Py.len audio_buffer /\
  exists seg,
    extract_segment audio_buffer 0 16001 = Ok (Some seg) /\
    exists body,
      seg = (body ++ repeat (fin 0) (Z.to_nat SAMPLE_RATE))%list /\
      Py.len body = 16001 - 0 /\
      SAMPLE_RATE <= Py.len body /\
      Py.len seg = (16001 - 0) + SAMPLE_RATE.
Proof.
  intros audio_buffer.
  assert (Hlen : Py.len audio_buffer = 16001)
    by (apply PyFacts.len_repeat; lia).
  assert (H0 : 0 <= 0) by lia.
  assert (H1 : 16001 <= Py.len audio_buffer) by (rewrite Hlen; lia).
  destruct (Extract.extract_segment_in_range audio_buffer 0 16001 H0 H1)
    as [body [_ [_ He]]]; [reflexivity|].
  split; [exact H0|]. split; [exact H1|].
  exists (Np.pad body SAMPLE_RATE). split; [exact He|].
  exact (segment_is_padded_by_one_second audio_buffer 0 16001 _ H0 H1 He).
Defined.

(** C5, as stated, fails on the default thread with a buffer of exactly
    [MIN_SAMPLES] = 160000 samples: 16000 samples are kept, not 144000. *)
Lemma buffer_keeps_one_second_not_the_rest :
  ~ (forall (transcribe : array -> result string)
            (strip lower : string -> string)
            (self : TranscriptionThread) (st st' : locals),
        MIN_SAMPLES self <= Py.len (audio_buffer st) ->
        next (process transcribe strip lower self st) = Ok st' ->
        Py.len (audio_buffer st') = MIN_SAMPLES self - SAMPLE_RATE).
Proof.
  intros H.
  pose (transcribe := fun _ : array => @Ok string "").
  pose (id := fun s : string => s).
  assert (Hany : forall buffer : array, Py.len buffer = 160000 -> False).
  { intros buffer Hlen.
    pose (st := {| audio_buffer := buffer; last_transcription := "" |}).
    assert (Hmin : MIN_SAMPLES init <= Py.len (audio_buffer st))
      by (simpl; rewrite Hlen; discriminate).
    destruct (Cycle.kept_len init (audio_buffer st)) as [_ Hk];
      [discriminate|exact Hmin|].
    assert (Hnext : exists last',
               next (process transcribe id id init st)
               = Ok {| audio_buffer :=
                         Py.slice_from (audio_buffer st)
                                       (MIN_SAMPLES init - SAMPLE_RATE);
                       last_transcription := last' |}).
    { destruct (Cycle.process_cases transcribe id id init st Hmin)
        as [start [end_ [_ [_ [_ [[_ Hp]|[_ [body [_ [_ Hp]]]]]]]]]];
        rewrite Hp; eexists; reflexivity. }
    destruct Hnext as [last' Hnext].
    apply (H transcribe id id init st _ Hmin) in Hnext.
    cbn [audio_buffer] in Hnext. rewrite Hk in Hnext.
    simpl in Hnext. rewrite Hlen in Hnext. discriminate Hnext. }
  apply (Hany (repeat (fin 0) (Z.to_nat 160000))).
  apply PyFacts.len_repeat. lia.
Qed.

(** C5, as amended, on a thread set to 5 seconds with a buffer of 80000
    zeros and a transcription that returns a fixed text. *)
Lemma buffer_tail_is_kept_witness :
  let self := set_buffer_size init 5 in
  let st := {| audio_buffer := repeat (fin 0) (Z.to_nat 80000);
               last_transcription := "" |} in
  let transcribe := fun _ : array => Ok "a first phrase" in
  let it := process transcribe (fun s => s) Str.lower self st in
  1 <= buffer_size_seconds self /\
  MIN_SAMPLES self <= Py.len (audio_buffer st) /\
  ((exists seg e,
      transcribed it = [seg] /\ transcribe seg = Raise e /\ next it = Raise e)
   \/
   (exists st',
      next it = Ok st' /\
      audio_buffer st'
      = skipn (Z.to_nat (MIN_SAMPLES self - SAMPLE_RATE)) (audio_buffer st) /\
      Py.len (audio_buffer st')
      = Py.len (audio_buffer st) - (MIN_SAMPLES self - SAMPLE_RATE) /\
      SAMPLE_RATE <= Py.len (audio_buffer st'))).
Proof.
  intros self st transcribe it.
  assert (Hb : 1 <= buffer_size_seconds self) by discriminate.
  assert (Hmin : MIN_SAMPLES self <= Py.len (audio_buffer st)).
  { change (80000 <= Py.len (repeat (fin 0) (Z.to_nat 80000))).
    rewrite PyFacts.len_repeat; lia. }
  split; [exact Hb|]. split; [exact Hmin|].
  exact (buffer_tail_is_kept transcribe (fun s => s) Str.lower self st Hb Hmin).
Defined.

(** C6, as stated, fails after "hello there" on the longer
    "hello there, how are you": it is emitted. *)
Lemma longer_variant_is_emitted :
  ~ (forall transcript last : string,
        Str.contains (Str.lower transcript) (Str.lower last) = true ->
        Str.lower transcript <> Str.lower last ->
        fst (dedup_filter Str.lower transcript last) = None).
Proof.
  intros H.
  specialize (H "hello there, how are you" "hello there"
                eq_refl ltac:(discriminate)).
  vm_compute in H. discriminate H.
Qed.

Lemma longer_variant_passes_containment_witness :
  Str.contains (Str.lower "hello there, how are you") (Str.lower "hello there")
  = true /\
  Str.lower "hello there, how are you" <> Str.lower "hello there" /\
  dedup_filter Str.lower "hello there, how are you" "hello there"
  = (Some "hello there, how are you", "hello there, how are you").
Proof.
  assert (Hin : Str.contains (Str.lower "hello there, how are you")
                             (Str.lower "hello there") = true) by reflexivity.
  assert (Hne : Str.lower "hello there, how are you" <> Str.lower "hello there")
    by (vm_compute; discriminate).
  split; [exact Hin|]. split; [exact Hne|].
  exact (longer_variant_passes_containment Str.lower _ _ Hin Hne).
Defined.

(** C10 on a thread asked for 0 seconds, hence set to 5, with a buffer of
    80000 zeros. *)
Lemma fail_open_region_is_transcribed_witness :
  let self := set_buffer_size init 0 in
  let st := {| audio_buffer := repeat (fin 0) (Z.to_nat 80000);
               last_transcription := "" |} in
  let transcribe := fun _ : array => Ok "" in
  let prefix := Py.slice_to (audio_buffer st) (MIN_SAMPLES self) in
  5 <= buffer_size_seconds self /\
  MIN_SAMPLES self <= Py.len (audio_buffer st) /\
  Py.any (speech_regions (energy prefix)) = false /\
  exists body max_val,
    find_speech_boundaries prefix = Ok (0, MIN_SAMPLES self) /\
    MIN_SAMPLES self - 0 > SAMPLE_RATE /\
    normalize prefix = Ok body /\
    Np.max (Np.abs prefix) = Ok max_val /\
    (f_gt max_val (fin 0) = true ->
     body = Np.div prefix max_val /\
     exists m, Np.max (Np.abs body) = Ok (fin m) /\ (m == 1)%Q) /\
    (f_gt max_val (fin 0) = false -> body = prefix) /\
    Py.len body = MIN_SAMPLES self /\
    extract_segment (audio_buffer st) 0 (MIN_SAMPLES self)
    = Ok (Some (body ++ repeat (fin 0) (Z.to_nat SAMPLE_RATE))%list) /\
    transcribed (process transcribe (fun s => s) Str.lower self st)
    = [(body ++ repeat (fin 0) (Z.to_nat SAMPLE_RATE))%list].
Proof.
  intros self st transcribe prefix.
  assert (Hb : 5 <= buffer_size_seconds self) by discriminate.
  assert (Hmin : MIN_SAMPLES self <= Py.len (audio_buffer st)).
  { change (80000 <= Py.len (repeat (fin 0) (Z.to_nat 80000))).
    rewrite PyFacts.len_repeat; lia. }
  assert (Hs : Py.any (speech_regions (energy prefix)) = false).
  { apply Vad.silence_has_no_speech, PyFacts.Forall_slice_to, Vad.repeat_zero. }
  split; [exact Hb|]. split; [exact Hmin|]. split; [exact Hs|].
  exact (fail_open_region_is_transcribed transcribe (fun s => s) Str.lower
           self st Hb Hmin Hs).
Defined.


End Instances.

(** * Further properties *)

(** ** The loop of [run] *)

Module Loop.

Import PyFacts.

Lemma collect_concat (audio_buffer : array) (chunks : list array) :
  collect audio_buffer chunks = audio_buffer ++ List.concat chunks.
Proof.
  unfold collect. revert audio_buffer.
  induction chunks as [|c r IH]; intros b; simpl.
  - now rewrite app_nil_r.
  - rewrite IH. now rewrite app_assoc.
Qed.

Section Facts.

Variable transcribe : array -> result string.
Variable strip : string -> string.
Variable lower : string -> string.

(** The two ways an iteration goes. *)
Lemma process_inv (self : TranscriptionThread) (st : locals) :
  (Py.len (audio_buffer st) < MIN_SAMPLES self /\
   process transcribe strip lower self st = {| transcribed := []; emitted := []; next := Ok st |})
  \/
  (MIN_SAMPLES self <= Py.len (audio_buffer st) /\
   let prefix := Py.slice_to (audio_buffer st) (MIN_SAMPLES self) in
   let kept :=
     Py.slice_from (audio_buffer st) (MIN_SAMPLES self - SAMPLE_RATE) in
   exists start end_,
     find_speech_boundaries prefix = Ok (start, end_) /\
     0 <= start <= end_ /\ end_ <= Py.len prefix /\
     ((end_ - start <= SAMPLE_RATE /\
       process transcribe strip lower self st
       = {| transcribed := []; emitted := [];
            next := Ok {| audio_buffer := kept;
                          last_transcription := last_transcription st |} |})
      \/
      (SAMPLE_RATE < end_ - start /\
       exists body,
         normalize (Py.slice (audio_buffer st) start end_) = Ok body /\
         Py.len body = end_ - start /\
         process transcribe strip lower self st
         = match transcribe (Np.pad body SAMPLE_RATE) with
           | Raise e =>
             {| transcribed := [Np.pad body SAMPLE_RATE]; emitted := [];
                next := Raise e |}
           | Ok text =>
             let d := dedup_filter lower (strip text) (last_transcription st) in
             {| transcribed := [Np.pad body SAMPLE_RATE];
                emitted := signal (fst d);
                next := Ok {| audio_buffer := kept;
                              last_transcription := snd d |} |}
           end))).
Proof.
  destruct (Z_lt_le_dec (Py.len (audio_buffer st)) (MIN_SAMPLES self)) as [H|H].
  - left. split; [exact H|]. now apply Cycle.process_short.
  - right. split; [exact H|]. now apply Cycle.process_cases.
Qed.

(** What an iteration emits: nothing, or one text that passed the filter
    and is the new [last_transcription]. *)
Lemma process_emitted (self : TranscriptionThread) (st : locals) :
  let it := process transcribe strip lower self st in
  match next it with
  | Raise _ => emitted it = []
  | Ok st' =>
    (emitted it = [] /\ last_transcription st' = last_transcription st) \/
    (exists text,
       emitted it = [text] /\ last_transcription st' = text /\
       Str.len text > MIN_PHRASE_LENGTH /\
       Str.contains (lower (last_transcription st)) (lower text) = false)
  end.
Proof.
  cbv zeta.
  destruct (process_inv self st) as [[_ Hp]|[_ Hc]].
  - rewrite Hp. simpl. now left.
  - cbv zeta in Hc.
    destruct Hc as [start [end_ [_ [_ [_ [[_ Hp]|[_ [body [_ [_ Hp]]]]]]]]]];
      rewrite Hp.
    + simpl. now left.
    + destruct (transcribe _) as [text|e]; [|reflexivity]. cbn [next emitted].
      rewrite Dedup.dedup_filter_cases.
      destruct (Z.gtb_spec (Str.len (strip text)) MIN_PHRASE_LENGTH) as [Hl|Hl];
        [destruct (Str.contains _ _) eqn:Ec|]; simpl.
      * now left.
      * right. exists (strip text). repeat split; [lia|exact Ec].
      * now left.
Qed.

(** What an iteration transcribes: nothing, or one padded segment. *)
Lemma process_transcribed (self : TranscriptionThread) (st : locals) :
  0 <= buffer_size_seconds self ->
  let it := process transcribe strip lower self st in
  transcribed it = [] \/
  exists body,
    transcribed it = [body ++ repeat (fin 0) (Z.to_nat SAMPLE_RATE)] /\
    SAMPLE_RATE < Py.len body <= MIN_SAMPLES self.
Proof.
  intros Hb. cbv zeta.
  destruct (process_inv self st) as [[_ Hp]|[Hmin Hc]].
  - rewrite Hp. now left.
  - cbv zeta in Hc.
    destruct Hc as [start [end_ [_ [Hse [Hend [[_ Hp]|[Hgt [body [_ [Hl Hp]]]]]]]]]];
      rewrite Hp.
    + now left.
    + right. exists body.
      rewrite Cycle.prefix_len in Hend
        by (unfold MIN_SAMPLES, SAMPLE_RATE in *; lia).
      split; [destruct (transcribe _); reflexivity|]. lia.
Qed.

(** The buffer an iteration leaves. *)
Lemma process_buffer (self : TranscriptionThread) (st st' : locals) :
  next (process transcribe strip lower self st) = Ok st' ->
  (Py.len (audio_buffer st) < MIN_SAMPLES self /\
   audio_buffer st' = audio_buffer st) \/
  (MIN_SAMPLES self <= Py.len (audio_buffer st) /\
   audio_buffer st'
   = Py.slice_from (audio_buffer st) (MIN_SAMPLES self - SAMPLE_RATE)).
Proof.
  destruct (process_inv self st) as [[Hlt Hp]|[Hmin Hc]].
  - rewrite Hp. simpl. intros [= <-]. now left.
  - cbv zeta in Hc. right. split; [exact Hmin|].
    destruct Hc as [start [end_ [_ [_ [_ [[_ Hp]|[_ [body [_ [_ Hp]]]]]]]]]];
      rewrite Hp in H.
    + simpl in H. now injection H as <-.
    + destruct (transcribe _); [|discriminate]. simpl in H.
      now injection H as <-.
Qed.

Lemma slice_from_suffix {A} (l : list A) (lo : Z) :
  exists dropped, l = dropped ++ Py.slice_from l lo.
Proof.
  unfold Py.slice_from. eexists. symmetry. apply firstn_skipn.
Qed.

Lemma step_unfold (self : TranscriptionThread) (st : locals)
  (chunks : list array) :
  step transcribe strip lower self st chunks
  = process transcribe strip lower self {| audio_buffer := audio_buffer st ++ List.concat chunks;
                    last_transcription := last_transcription st |}.
Proof. unfold step. now rewrite collect_concat. Qed.

Lemma process_counts (self : TranscriptionThread) (st : locals) :
  let it := process transcribe strip lower self st in
  (List.length (emitted it) <= List.length (transcribed it) <= 1)%nat.
Proof.
  cbv zeta.
  destruct (process_inv self st) as [[_ Hp]|[_ Hc]].
  - rewrite Hp. simpl. lia.
  - cbv zeta in Hc.
    destruct Hc as [start [end_ [_ [_ [_ [[_ Hp]|[_ [body [_ [_ Hp]]]]]]]]]];
      rewrite Hp.
    + simpl. lia.
    + destruct (transcribe _); simpl; [|lia].
      destruct (fst (dedup_filter _ _ _)); simpl; lia.
Qed.

Lemma last_cons {A} (x d : A) (l : list A) :
  List.last (x :: l) d = List.last l x.
Proof.
  revert x d. induction l as [|y r IH]; intros x d; [reflexivity|].
  change (List.last (x :: y :: r) d) with (List.last (y :: r) d).
  now rewrite (IH y d), (IH y x).
Qed.

Lemma loop_cons (self : TranscriptionThread) (st : locals)
  (chunks : list array) (rest : list (list array)) :
  loop transcribe strip lower self st (chunks :: rest)
  = let it := step transcribe strip lower self st chunks in
    match next it with
    | Raise e => it
    | Ok st' =>
      let more := loop transcribe strip lower self st' rest in
      {| transcribed := transcribed it ++ transcribed more;
         emitted := emitted it ++ emitted more;
         next := next more |}
    end.
Proof. reflexivity. Qed.

(** The texts a run emits. *)
Lemma loop_emitted (self : TranscriptionThread) (arrivals : list (list array))
  (st : locals) :
  let it := loop transcribe strip lower self st arrivals in
  Forall (fun text => Str.len text > MIN_PHRASE_LENGTH) (emitted it) /\
  fresh_chain lower (last_transcription st) (emitted it) /\
  match next it with
  | Ok st' =>
    last_transcription st' = List.last (emitted it) (last_transcription st)
  | Raise _ => True
  end.
Proof.
  revert st. induction arrivals as [|chunks rest IH]; intros st.
  - simpl. auto.
  - cbv zeta. rewrite loop_cons. cbv zeta. rewrite step_unfold.
    set (st1 := {| audio_buffer := audio_buffer st ++ List.concat chunks;
                   last_transcription := last_transcription st |}).
    pose proof (process_emitted self st1) as He. cbv zeta in He.
    destruct (next (process transcribe strip lower self st1)) as [st'|e] eqn:En.
    + specialize (IH st'). cbv zeta in IH. destruct IH as [Hl [Hc Hn]].
      cbn [emitted next].
      destruct He as [[-> Hlast]|[text [-> [Hlast [Hlen Hfresh]]]]];
        cbn [app]; simpl in Hlast.
      * rewrite Hlast in Hc, Hn. auto.
      * rewrite Hlast in Hc, Hn. split; [now constructor|].
        split; [simpl; auto|].
        destruct (next _); [|exact I]. now rewrite last_cons.
    + rewrite He, En. simpl. auto.
Qed.

(** At most one transcription per iteration, at most one text per
    transcription. *)
Lemma loop_counts (self : TranscriptionThread) (arrivals : list (list array))
  (st : locals) :
  let it := loop transcribe strip lower self st arrivals in
  (List.length (emitted it) <= List.length (transcribed it)
   <= List.length arrivals)%nat.
Proof.
  revert st. induction arrivals as [|chunks rest IH]; intros st.
  - simpl. lia.
  - cbv zeta. rewrite loop_cons. cbv zeta. rewrite step_unfold.
    set (st1 := {| audio_buffer := audio_buffer st ++ List.concat chunks;
                   last_transcription := last_transcription st |}).
    pose proof (process_counts self st1) as Hc. cbv zeta in Hc.
    destruct (next (process transcribe strip lower self st1)) as [st'|e] eqn:En.
    + specialize (IH st'). cbv zeta in IH. cbn [emitted transcribed].
      rewrite !length_app. simpl. lia.
    + simpl. lia.
Qed.

(** Every array handed to the transcription. *)
Lemma loop_transcribed (self : TranscriptionThread)
  (arrivals : list (list array)) (st : locals) :
  0 <= buffer_size_seconds self ->
  Forall (fun seg =>
            exists body,
              seg = body ++ repeat (fin 0) (Z.to_nat SAMPLE_RATE) /\
              SAMPLE_RATE < Py.len body <= MIN_SAMPLES self)
         (transcribed (loop transcribe strip lower self st arrivals)).
Proof.
  intros Hb. revert st. induction arrivals as [|chunks rest IH]; intros st.
  - constructor.
  - rewrite loop_cons. cbv zeta. rewrite step_unfold.
    set (st1 := {| audio_buffer := audio_buffer st ++ List.concat chunks;
                   last_transcription := last_transcription st |}).
    pose proof (process_transcribed self st1 Hb) as Ht. cbv zeta in Ht.
    assert (H1 : Forall (fun seg =>
                exists body,
                  seg = body ++ repeat (fin 0) (Z.to_nat SAMPLE_RATE) /\
                  SAMPLE_RATE < Py.len body <= MIN_SAMPLES self)
                (transcribed (process transcribe strip lower self st1))).
    { destruct Ht as [->|[body [-> Hl]]]; constructor; [|constructor].
      now exists body. }
    destruct (next (process transcribe strip lower self st1)) as [st'|e] eqn:En.
    + cbn [transcribed]. apply Forall_app. split; [exact H1|apply IH].
    + exact H1.
Qed.

(** The buffer is at all times a suffix of what was received. *)
Lemma loop_suffix (self : TranscriptionThread) (arrivals : list (list array))
  (st : locals) :
  match next (loop transcribe strip lower self st arrivals) with
  | Ok st' =>
    exists dropped,
      audio_buffer st ++ received arrivals = dropped ++ audio_buffer st'
  | Raise _ => True
  end.
Proof.
  revert st. induction arrivals as [|chunks rest IH]; intros st.
  - simpl. exists []. unfold received. simpl. now rewrite app_nil_r.
  - rewrite loop_cons. cbv zeta. rewrite step_unfold.
    set (st1 := {| audio_buffer := audio_buffer st ++ List.concat chunks;
                   last_transcription := last_transcription st |}).
    destruct (next (process transcribe strip lower self st1)) as [st'|e] eqn:En;
      [|rewrite En; exact I].
    cbn [next]. specialize (IH st').
    destruct (next (loop transcribe strip lower self st' rest)) as [st''|e];
      [|exact I].
    destruct IH as [d2 Hd2].
    assert (Hd1 : exists d1, audio_buffer st1 = d1 ++ audio_buffer st').
    { destruct (process_buffer self st1 st' En) as [[_ ->]|[_ ->]].
      - now exists [].
      - apply slice_from_suffix. }
    destruct Hd1 as [d1 Hd1]. exists (d1 ++ d2).
    unfold received in *. simpl. rewrite app_assoc.
    change (audio_buffer st ++ List.concat chunks) with (audio_buffer st1).
    rewrite Hd1, <- !app_assoc. now rewrite Hd2.
Qed.

(** Nothing happens until [MIN_SAMPLES] samples are there. *)
Lemma loop_idle (self : TranscriptionThread) (arrivals : list (list array))
  (st : locals) :
  Py.len (audio_buffer st) + Py.len (received arrivals) < MIN_SAMPLES self ->
  loop transcribe strip lower self st arrivals
  = {| transcribed := []; emitted := [];
       next := Ok {| audio_buffer := audio_buffer st ++ received arrivals;
                     last_transcription := last_transcription st |} |}.
Proof.
  revert st. induction arrivals as [|chunks rest IH]; intros st Hlen.
  - unfold received. simpl. rewrite app_nil_r. now destruct st.
  - unfold received in Hlen. simpl in Hlen. rewrite len_app in Hlen.
    fold (received rest) in Hlen.
    pose proof (len_nonneg (received rest)).
    rewrite loop_cons. cbv zeta. rewrite step_unfold.
    set (st1 := {| audio_buffer := audio_buffer st ++ List.concat chunks;
                   last_transcription := last_transcription st |}).
    rewrite (Cycle.process_short transcribe strip lower self st1)
      by (simpl; rewrite len_app; lia).
    cbn [next transcribed emitted]. rewrite IH by (simpl; rewrite len_app; lia).
    simpl. unfold received. simpl. now rewrite app_assoc.
Qed.

(** When no iteration receives more than [MIN_SAMPLES - SAMPLE_RATE]
    samples, the buffer stays below [MIN_SAMPLES] between iterations. *)
Lemma loop_bounded (self : TranscriptionThread) (arrivals : list (list array))
  (st : locals) :
  1 <= buffer_size_seconds self ->
  Py.len (audio_buffer st) < MIN_SAMPLES self ->
  Forall (fun chunks =>
            Py.len (List.concat chunks) <= MIN_SAMPLES self - SAMPLE_RATE)
         arrivals ->
  match next (loop transcribe strip lower self st arrivals) with
  | Ok st' => Py.len (audio_buffer st') < MIN_SAMPLES self
  | Raise _ => True
  end.
Proof.
  intros Hb. revert st. induction arrivals as [|chunks rest IH];
    intros st Hlen Hall.
  - exact Hlen.
  - apply Forall_cons_iff in Hall as [Hc Hrest].
    rewrite loop_cons. cbv zeta. rewrite step_unfold.
    set (st1 := {| audio_buffer := audio_buffer st ++ List.concat chunks;
                   last_transcription := last_transcription st |}).
    destruct (next (process transcribe strip lower self st1)) as [st'|e] eqn:En;
      [|rewrite En; exact I].
    cbn [next]. apply IH; [|exact Hrest].
    assert (H1 : Py.len (audio_buffer st1)
                 = Py.len (audio_buffer st) + Py.len (List.concat chunks))
      by (simpl; apply len_app).
    destruct (process_buffer self st1 st' En) as [[Hlt ->]|[Hmin ->]];
      [exact Hlt|].
    destruct (Cycle.kept_len self (audio_buffer st1) Hb Hmin) as [_ ->]. lia.
Qed.

(** The buffer kept starts with the last second of the prefix evaluated. *)
Lemma kept_overlap (self : TranscriptionThread) (audio_buffer : array) :
  1 <= buffer_size_seconds self ->
  MIN_SAMPLES self <= Py.len audio_buffer ->
  Py.slice_to (Py.slice_from audio_buffer (MIN_SAMPLES self - SAMPLE_RATE))
              SAMPLE_RATE
  = Py.slice audio_buffer (MIN_SAMPLES self - SAMPLE_RATE) (MIN_SAMPLES self).
Proof.
  intros Hb Hmin.
  destruct (Cycle.kept_len self audio_buffer Hb Hmin) as [Hk Hl].
  unfold Py.slice_to. rewrite Hl, Hk. unfold Py.slice.
  unfold MIN_SAMPLES, SAMPLE_RATE in *.
  rewrite !bound_inside by lia. do 2 f_equal. lia.
Qed.

End Facts.

End Loop.

(** ** The input devices *)

Module Devices.

Import PyFacts.

Lemma available_from_In (devs : list PyAudio.device_info) (k i : Z)
  (text : string) :
  In (text, i) (available_from k devs) <->
  k <= i /\
  exists dev,
    nth_error devs (Z.to_nat (i - k)) = Some dev /\
    PyAudio.maxInputChannels dev > 0 /\
    text = display_name (PyAudio.name dev).
Proof.
  revert k. induction devs as [|d r IH]; intros k; simpl.
  - split; [tauto|]. intros [_ [dev [H _]]].
    destruct (Z.to_nat (i - k)); discriminate.
  - rewrite in_app_iff, IH. split.
    + intros [H|[H1 [dev [Hn Hd]]]].
      * destruct (Z.gtb_spec (PyAudio.maxInputChannels d) 0) as [Hpos|];
          [|destruct H].
        destruct H as [[= <- <-]|[]]. split; [lia|].
        exists d. rewrite Z.sub_diag. simpl. repeat split. lia.
      * split; [lia|]. exists dev.
        replace (Z.to_nat (i - k)) with (S (Z.to_nat (i - (k + 1)))) by lia.
        auto.
    + intros [H1 [dev [Hn [Hpos Ht]]]]. destruct (Z.eq_dec i k) as [->|Hne].
      * left. rewrite Z.sub_diag in Hn. simpl in Hn. injection Hn as ->.
        destruct (Z.gtb_spec (PyAudio.maxInputChannels dev) 0); [|lia].
        subst text. now left.
      * right. split; [lia|]. exists dev.
        replace (Z.to_nat (i - k)) with (S (Z.to_nat (i - (k + 1)))) in Hn
          by lia.
        auto.
Qed.

Lemma available_from_sorted (devs : list PyAudio.device_info) (k : Z) :
  StronglySorted Z.lt (map snd (available_from k devs)).
Proof.
  revert k. induction devs as [|d r IH]; intros k; simpl; [constructor|].
  destruct (PyAudio.maxInputChannels d >? 0); simpl; [|apply IH].
  constructor; [apply IH|].
  apply Forall_forall. intros i Hi. apply in_map_iff in Hi as [[text j] [<- Hj]].
  apply available_from_In in Hj. simpl. lia.
Qed.

Lemma append_assoc (a b c : string) :
  ((a ++ b) ++ c)%string = (a ++ b ++ c)%string.
Proof. induction a as [|x a IH]; simpl; [reflexivity|]. now rewrite IH. Qed.

(** A device whose name has "CABLE Output" is shown with "Virtual Cable"
    in its name. *)
Lemma display_name_cable (name : string) :
  Str.contains name "CABLE Output" = true ->
  Str.contains (display_name name) "Virtual Cable" = true.
Proof.
  intros H. unfold display_name. rewrite H.
  apply StrFacts.contains_spec. exists (name ++ " (")%string, ")"%string.
  now rewrite append_assoc.
Qed.

Lemma first_virtual_cable_spec (items : list string) (k : Z) :
  match first_virtual_cable k items with
  | Some i =>
    k <= i < k + Py.len items /\
    Str.contains (nth (Z.to_nat (i - k)) items EmptyString) "Virtual Cable"
    = true /\
    forall j, k <= j < i ->
      Str.contains (nth (Z.to_nat (j - k)) items EmptyString) "Virtual Cable"
      = false
  | None =>
    forall text, In text items -> Str.contains text "Virtual Cable" = false
  end.
Proof.
  revert k. induction items as [|t r IH]; intros k; [simpl; tauto|].
  cbn [first_virtual_cable].
  destruct (Str.contains t "Virtual Cable") eqn:E.
  - split; [unfold Py.len; simpl; lia|]. rewrite Z.sub_diag. simpl.
    split; [exact E|]. intros j Hj. lia.
  - specialize (IH (k + 1)).
    destruct (first_virtual_cable (k + 1) r) as [i|].
    + destruct IH as [Hi [Hc Hbefore]]. split.
      * unfold Py.len in *. simpl List.length. lia.
      * replace (Z.to_nat (i - k)) with (S (Z.to_nat (i - (k + 1)))) by lia.
        split; [exact Hc|]. intros j Hj.
        destruct (Z.eq_dec j k) as [->|Hne].
        -- rewrite Z.sub_diag. exact E.
        -- replace (Z.to_nat (j - k)) with (S (Z.to_nat (j - (k + 1)))) by lia.
           apply Hbefore. lia.
    + intros text [<-|Hin]; [exact E|now apply IH].
Qed.

(** Inside the bounds, [devices[index]] does not raise. *)
Lemma on_device_changed_cases (p : list PyAudio.device_info)
  (thread : TranscriptionThread) (index : Z) :
  let devices := get_available_devices p in
  (~ (0 <= index < Py.len devices) /\
   on_device_changed p thread index = Ok thread)
  \/
  (0 <= index < Py.len devices /\
   exists text device_index,
     nth_error devices (Z.to_nat index) = Some (text, device_index) /\
     on_device_changed p thread index = Ok (set_device thread device_index)).
Proof.
  cbv zeta. unfold on_device_changed.
  destruct (Z.geb_spec index 0) as [H0|H0];
    destruct (Z.ltb_spec index (Py.len (get_available_devices p))) as [H1|H1];
    simpl; try (left; split; [lia|reflexivity]).
  right. split; [lia|].
  destruct (nth_error (get_available_devices p) (Z.to_nat index))
    as [[text d]|] eqn:En.
  - exists text, d. auto.
  - apply nth_error_None in En. unfold Py.len in H1. lia.
Qed.

End Devices.

(** ** The silence test *)

Module Silence.

Lemma all_fin (a : array) :
  (forall x, In x a -> exists q, x = Some q) -> exists xs, a = map Some xs.
Proof.
  induction a as [|x r IH]; intros H; [now exists []|].
  destruct (H x (or_introl eq_refl)) as [q ->].
  destruct IH as [xs ->]; [intros y Hy; apply H; now right|].
  now exists (q :: xs).
Qed.

Lemma f_lt_fin (p c : Q) : f_lt (Some p) (Some c) = true <-> (p < c)%Q.
Proof.
  simpl. rewrite negb_true_iff. split.
  - intros H. apply Qnot_le_lt. intros Hle. apply Qle_bool_iff in Hle.
    congruence.
  - intros H. destruct (Qle_bool c p) eqn:E; [|reflexivity].
    apply Qle_bool_iff in E. exfalso. eapply Qlt_not_le; eassumption.
Qed.

(** The peak of a non-empty array without [nan]. *)
Lemma max_abs_fin (x : Q) (xs : list Q) :
  exists p,
    Np.max (Np.abs (map Some (x :: xs))) = Ok (Some p) /\
    (forall y, In y (x :: xs) -> (Qabs y <= p)%Q) /\
    exists y, In y (x :: xs) /\ p = Qabs y.
Proof.
  rewrite Extract.abs_fin. cbn [map]. rewrite Extract.max_fin.
  eexists. split; [reflexivity|].
  pose proof (Extract.fold_q_max (map Qabs xs) (Qabs x)) as [Hub Hin].
  change (Qabs x :: map Qabs xs) with (map Qabs (x :: xs)) in Hub, Hin.
  split.
  - intros y Hy. apply Hub. now apply in_map.
  - apply in_map_iff in Hin as [y [Hy Hin]]. exists y. auto.
Qed.

(** A peak that is not [nan] comes from an array without [nan]. *)
Lemma max_abs_fin_inv (a : array) (p : Q) :
  Np.max (Np.abs a) = Ok (Some p) ->
  exists x xs, a = map Some (x :: xs).
Proof.
  intros H. destruct (Np.abs a) as [|y r] eqn:Ea; [discriminate|].
  simpl in H. injection H as H.
  destruct (Extract.fold_f_max_fin _ _ _ H) as [q [qs [-> [-> _]]]].
  destruct (Extract.abs_fin_inv a (q :: qs) Ea) as [xs [-> Hxs]].
  destruct xs as [|x xs]; [discriminate|]. now exists x, xs.
Qed.

End Silence.

(** ** The relative threshold *)

Module Threshold.

Import PyFacts.

Lemma finite_fin (a : array) : Forall finite a -> exists xs, a = map Some xs.
Proof.
  intros H. apply Silence.all_fin. intros x Hx.
  pose proof (proj1 (Forall_forall _ _) H x Hx) as Hf.
  destruct x as [q|]; [now exists q|]. now contradiction Hf.
Qed.

Lemma sum_fin (qs : list Q) : Np.sum (map Some qs) = Some (q_sum qs).
Proof.
  induction qs as [|q r IH]; [reflexivity|].
  unfold Np.sum in *. simpl. now rewrite IH.
Qed.

Lemma q_sum_nonneg (qs : list Q) :
  Forall (fun q => 0 <= q)%Q qs -> (0 <= q_sum qs)%Q.
Proof.
  induction 1 as [|q r Hq _ IH]; simpl; [apply Qle_refl|].
  unfold q_sum in *. simpl. lra.
Qed.

Lemma q_sum_abs_nonneg (xs : list Q) : (0 <= q_sum (map Qabs xs))%Q.
Proof.
  apply q_sum_nonneg, Forall_forall. intros q Hq.
  apply in_map_iff in Hq as [x [<- _]]. apply Qabs_nonneg.
Qed.

Lemma inject_succ (n : nat) :
  (inject_Z (Z.of_nat (S n)) == 1 + inject_Z (Z.of_nat n))%Q.
Proof.
  rewrite Nat2Z.inj_succ. unfold Z.succ. rewrite inject_Z_plus.
  change (inject_Z 1) with 1%Q. ring.
Qed.

Lemma q_sum_le (qs : list Q) (c : Q) :
  (forall q, In q qs -> q <= c)%Q ->
  (q_sum qs <= inject_Z (Z.of_nat (List.length qs)) * c)%Q.
Proof.
  induction qs as [|q r IH]; intros H.
  - change (0 <= 0 * c)%Q. lra.
  - assert (Hq : (q <= c)%Q) by (apply H; now left).
    assert (Hr : (q_sum r <= inject_Z (Z.of_nat (List.length r)) * c)%Q)
      by (apply IH; intros y Hy; apply H; now right).
    cbn [List.length]. rewrite inject_succ. unfold q_sum in *. simpl. lra.
Qed.

Lemma q_sum_zero (qs : list Q) :
  Forall (fun q => 0 <= q)%Q qs -> (q_sum qs <= 0)%Q ->
  Forall (fun q => q == 0)%Q qs.
Proof.
  induction 1 as [|q r Hq Hr IH]; intros Hs; [constructor|].
  pose proof (q_sum_nonneg r Hr) as Hn. unfold q_sum in *. simpl in Hs.
  constructor; [lra|]. apply IH. lra.
Qed.

Lemma inject_len_pos {A} (x : A) (l : list A) :
  (0 < inject_Z (Py.len (x :: l)))%Q.
Proof.
  unfold Py.len. change 0%Q with (inject_Z 0). rewrite <- Zlt_Qlt.
  simpl List.length. lia.
Qed.

Lemma mean_fin (q : Q) (qs : list Q) :
  Np.mean (map Some (q :: qs))
  = Some (q_sum (q :: qs) / inject_Z (Py.len (map Some (q :: qs))))%Q.
Proof.
  unfold Np.mean. cbn [map]. change (Some q :: map Some qs) with
    (map Some (q :: qs)). rewrite sum_fin. unfold f_div, fin.
  destruct (Qeq_bool (inject_Z (Py.len (map Some (q :: qs)))) 0%Q) eqn:E;
    [|reflexivity].
  apply Qeq_bool_iff in E. pose proof (inject_len_pos (Some q) (map Some qs)).
  cbn [map] in E. lra.
Qed.

(** The energy of each window of an array without [nan] is a
    non-negative number. *)
Lemma energy_fin (audio_data : array) :
  Forall finite audio_data ->
  exists qs, energy audio_data = map Some qs /\ Forall (fun q => 0 <= q)%Q qs.
Proof.
  intros Hf. unfold energy.
  assert (H : forall i, In i (window_offsets audio_data) ->
            exists q, Np.mean (Np.abs (Py.slice audio_data i (i + window_size)))
                      = Some q /\ (0 <= q)%Q).
  { intros i Hi. unfold window_offsets in Hi.
    apply range_In in Hi as [k [Hk [-> Hlt]]]; [|reflexivity].
    pose proof (Forall_slice _ audio_data (k * window_size)
                  (k * window_size + window_size) Hf) as Hs.
    pose proof (slice_len audio_data (k * window_size)
                  (k * window_size + window_size)) as Hl.
    destruct (finite_fin _ Hs) as [xs Hxs]. rewrite Hxs in *.
    destruct xs as [|x xs].
    { unfold window_size, Py.len in *. simpl in Hl. lia. }
    rewrite Extract.abs_fin.
    change (map Qabs (x :: xs)) with (Qabs x :: map Qabs xs).
    rewrite mean_fin.
    eexists. split; [reflexivity|].
    apply Qle_shift_div_l; [apply inject_len_pos|].
    rewrite Qmult_0_l.
    change (Qabs x :: map Qabs xs) with (map Qabs (x :: xs)).
    apply q_sum_abs_nonneg. }
  induction (window_offsets audio_data) as [|i r IH]; [now exists []|].
  destruct (H i (or_introl eq_refl)) as [q [Hq Hpos]].
  destruct IH as [qs [Hqs Hall]]; [intros j Hj; apply H; now right|].
  exists (q :: qs). simpl. rewrite Hq, Hqs. split; [reflexivity|].
  now constructor.
Qed.

(** Among non-negative energies, none exceeds half their mean only when
    all are zero. *)
Lemma no_speech_zero (qs : list Q) :
  Forall (fun q => 0 <= q)%Q qs ->
  Py.any (speech_regions (map Some qs)) = false ->
  Forall (fun q => q == 0)%Q qs.
Proof.
  intros Hpos Hany. destruct qs as [|q0 r]; [constructor|].
  set (qs := q0 :: r) in *.
  set (n := inject_Z (Py.len (map Some qs))).
  assert (Hn : (0 < n)%Q) by apply inject_len_pos.
  assert (Hle : forall q, In q qs -> (q <= q_sum qs / n * (1 # 2))%Q).
  { intros q Hq. unfold Py.any in Hany.
    assert (Hf : f_gt (Some q) (threshold (map Some qs)) = false).
    { destruct (f_gt (Some q) (threshold (map Some qs))) eqn:E; [|reflexivity].
      assert (Ht : existsb (fun b => b) (speech_regions (map Some qs)) = true);
        [|congruence].
      apply existsb_exists. exists true. split; [|reflexivity].
      unfold speech_regions. apply in_map_iff. exists (Some q).
      split; [exact E|]. now apply in_map. }
    unfold threshold in Hf. unfold qs in Hf at 1. rewrite mean_fin in Hf.
    fold qs in Hf. fold n in Hf. simpl in Hf.
    apply negb_false_iff, Qle_bool_iff in Hf. exact Hf. }
  apply q_sum_zero; [exact Hpos|].
  pose proof (q_sum_le qs _ Hle) as Hs.
  assert (Hlen : (inject_Z (Z.of_nat (List.length qs)) == n)%Q).
  { unfold n, Py.len. now rewrite length_map. }
  rewrite Hlen in Hs.
  assert (Hm : (n * (q_sum qs / n * (1 # 2)) == q_sum qs * (1 # 2))%Q)
    by (field; lra).
  rewrite Hm in Hs. lra.
Qed.

Lemma zero_fin (qs : list Q) :
  Forall nan_or_zero (map Some qs) <-> Forall (fun q => q == 0)%Q qs.
Proof.
  rewrite Forall_map. reflexivity.
Qed.

(** *** [nan] *)

Lemma sum_nan (a : array) : In nan a -> Np.sum a = nan.
Proof.
  induction a as [|x r IH]; [intros []|].
  intros [->|H]; unfold Np.sum in *; simpl.
  - reflexivity.
  - rewrite IH by exact H. now destruct x.
Qed.

Lemma mean_nan (a : array) : In nan a -> Np.mean a = nan.
Proof.
  intros H. unfold Np.mean. destruct a as [|x r]; [destruct H|].
  now rewrite sum_nan.
Qed.

Lemma abs_nan (a : array) : In nan a -> In nan (Np.abs a).
Proof. intros H. unfold Np.abs. now apply (in_map f_abs) in H. Qed.

Lemma speech_regions_nan (e : array) :
  In nan e -> Py.any (speech_regions e) = false.
Proof.
  intros H. unfold Py.any, speech_regions, threshold.
  rewrite (mean_nan e H). simpl.
  induction e as [|x r _]; [reflexivity|].
  clear H. induction (x :: r) as [|y l IH]; [reflexivity|].
  simpl. rewrite IH. now destruct y.
Qed.

End Threshold.

(** ** The duplicate filter, twice *)

Module Dedup2.

Lemma prefix_refl (s : string) : String.prefix s s = true.
Proof.
  induction s as [|c s IH]; [reflexivity|]. simpl.
  destruct (ascii_dec c c); [exact IH|congruence].
Qed.

Lemma contains_refl (s : string) : Str.contains s s = true.
Proof. destruct s; cbn [Str.contains]; now rewrite prefix_refl. Qed.

End Dedup2.

(** ** The windows taken *)

Module Windows.

Import PyFacts.

Lemma range_In_iff (stop step i : Z) :
  0 < step ->
  In i (Py.range 0 stop step) <->
  exists k, 0 <= k /\ i = k * step /\ i < stop.
Proof.
  intros Hs. split; [now apply range_In|].
  intros [k [Hk [-> Hlt]]]. unfold Py.range.
  destruct (Z.leb_spec stop 0); [nia|].
  apply in_map_iff. exists (Z.to_nat k). split; [lia|].
  apply in_seq. split; [lia|]. simpl.
  assert (Hq : k + 1 <= (stop - 0 + step - 1) / step).
  { apply Z.div_le_lower_bound; [exact Hs|]. nia. }
  lia.
Qed.

Lemma window_offsets_In (audio_data : array) (i : Z) :
  In i (window_offsets audio_data) <->
  0 <= i /\ i mod window_size = 0 /\ i + window_size < Py.len audio_data.
Proof.
  unfold window_offsets. rewrite range_In_iff by reflexivity.
  unfold window_size. split.
  - intros [k [Hk [-> Hlt]]]. rewrite Z.mod_mul by lia. lia.
  - intros [H0 [Hm Hlt]]. exists (i / 1024).
    assert (i = 1024 * (i / 1024)) by (apply Z.div_exact; lia).
    split; [apply Z.div_pos; lia|]. lia.
Qed.

End Windows.

(** ** The window *)

Module App.

Lemma stop_consistent (app : TranscriptionApp) :
  consistent (stop_transcription app).
Proof.
  unfold consistent, stop_transcription. cbn.
  repeat split; try discriminate.
  change [thread_stop; thread_wait] with ([thread_stop] ++ [thread_wait]).
  rewrite app_assoc, last_last. discriminate.
Qed.

Lemma handle_consistent (app : TranscriptionApp) (ev : app_event) :
  consistent app -> consistent (handle app ev).
Proof.
  intros H. destruct ev as [i text|[text|message]| |]; cbn [handle].
  - unfold toggle_transcription.
    destruct (is_transcribing app); cbn [negb]; [apply stop_consistent|].
    unfold start_transcription. destruct (i =? -1); [apply stop_consistent|].
    unfold consistent. cbn. rewrite last_last. repeat split; auto.
  - exact H.
  - apply stop_consistent.
  - exact H.
  - apply stop_consistent.
Qed.

Lemma run_consistent (events : list app_event) (app : TranscriptionApp) :
  consistent app -> consistent (fold_left handle events app).
Proof.
  revert app. induction events as [|ev r IH]; intros app H; [exact H|].
  simpl. apply IH, handle_consistent, H.
Qed.

Lemma init_consistent : consistent app_init.
Proof.
  unfold consistent, app_init. cbn. repeat split; discriminate.
Qed.

Lemma queue_after_callbacks (chunks : list array) (audio_queue : list array) :
  fold_left (fun q in_data => fst (audio_callback q in_data)) chunks audio_queue
  = audio_queue ++ chunks.
Proof.
  revert audio_queue. induction chunks as [|c r IH]; intros q; simpl.
  - now rewrite app_nil_r.
  - rewrite IH, <- app_assoc. reflexivity.
Qed.

End App.

(** * Further theorems *)

Section Extras.

Variable transcribe : array -> result string.
Variable strip : string -> string.
Variable lower : string -> string.
Variable open_stream : Z -> result unit.
Variable str : exn -> string.

(** X1.  When some window is classified as speech, the region returned
    runs from the first sample of the first speech window to the end of the
    last speech window; both bounds are multiples of the window size and
    the region stops short of the end of the array. *)
Theorem speech_region_spans_first_to_last (audio_data : array) :
  let mask := speech_regions (energy audio_data) in
  Py.any mask = true ->
  exists i j,
    find_speech_boundaries audio_data
      = Ok (i * window_size, (j + 1) * window_size) /\
    speech_at mask i /\ speech_at mask j /\
    (forall k, speech_at mask k -> i <= k <= j) /\
    (j + 1) * window_size < Py.len audio_data.
Proof. exact (Vad.find_speech_boundaries_speech audio_data). Qed.

(** X2.  A window is taken at offset [i] exactly when [i] is a
    non-negative multiple of 1024 and the window ends strictly before the
    end of the array. *)
Theorem window_taken_iff (audio_data : array) (i : Z) :
  In i (window_offsets audio_data) <->
  0 <= i /\ i mod window_size = 0 /\ i + window_size < Py.len audio_data.
Proof. exact (Windows.window_offsets_In audio_data i). Qed.

(** X3.  Under exact arithmetic, on an array whose samples are all
    finite numbers (the floats of this development are the rationals and
    [nan]: no infinity, no rounding, no overflow), no window is classified
    as speech exactly when the energy of every window taken is zero: one
    window of non-zero energy is enough for the detector to report
    speech. *)
Theorem no_speech_iff_zero_energy (audio_data : array) :
  Forall finite audio_data ->
  (Py.any (speech_regions (energy audio_data)) = false <->
   forall e, In e (energy audio_data) -> exists q, e = Some q /\ (q == 0)%Q).
Proof.
  intros Hf. destruct (Threshold.energy_fin audio_data Hf) as [qs [He Hpos]].
  rewrite He. split.
  - intros Hany e Hin. apply in_map_iff in Hin as [q [<- Hq]].
    exists q. split; [reflexivity|].
    exact (proj1 (Forall_forall _ _) (Threshold.no_speech_zero qs Hpos Hany) q Hq).
  - intros Hz. apply Vad.speech_regions_zero, Forall_forall.
    intros e Hin. destruct (Hz e Hin) as [q [-> Hq]]. exact Hq.
Qed.

(** X4.  A [nan] sample in any window taken makes the threshold [nan]:
    no window is classified as speech and the detector returns the whole
    array. *)
Theorem nan_returns_whole_array (audio_data : array) (i : Z) :
  In i (window_offsets audio_data) ->
  In nan (Py.slice audio_data i (i + window_size)) ->
  threshold (energy audio_data) = nan /\
  Py.any (speech_regions (energy audio_data)) = false /\
  find_speech_boundaries audio_data = Ok (0, Py.len audio_data).
Proof.
  intros Hi Hn.
  assert (He : In nan (energy audio_data)).
  { unfold energy. apply in_map_iff. exists i. split; [|exact Hi].
    now apply Threshold.mean_nan, Threshold.abs_nan. }
  pose proof (Threshold.speech_regions_nan _ He) as Hany.
  split; [|split; [exact Hany|]].
  - unfold threshold. now rewrite (Threshold.mean_nan _ He).
  - now apply Vad.find_speech_boundaries_silent.
Qed.

(** X5.  [is_silence] raises [ValueError] exactly on the empty array;
    otherwise it answers true exactly when no sample is [nan] and every
    sample is, in absolute value, below the threshold 0.005 times the
    multiplier. *)
Theorem is_silence_iff (audio_data : array) (threshold_multiplier : Q) :
  (is_silence audio_data (fin threshold_multiplier) = Raise ValueError <->
   audio_data = []) /\
  (is_silence audio_data (fin threshold_multiplier) = Ok true <->
   audio_data <> [] /\
   forall x, In x audio_data ->
     exists q, x = Some q /\
               (Qabs q < SILENCE_THRESHOLD * threshold_multiplier)%Q).
Proof.
  unfold is_silence. split.
  - destruct audio_data as [|x r]; simpl; split; try discriminate; auto.
  - split.
    + intros H.
      destruct (Np.max (Np.abs audio_data)) as [[p|]|e] eqn:Em;
        try discriminate.
      destruct (Silence.max_abs_fin_inv _ _ Em) as [x [xs ->]].
      split; [discriminate|].
      destruct (Silence.max_abs_fin x xs) as [p' [Hm [Hub _]]].
      rewrite Hm in Em. injection Em as ->.
      simpl in H. injection H as H. apply (Silence.f_lt_fin p) in H.
      intros y Hy. apply in_map_iff in Hy as [q [<- Hq]]. exists q.
      split; [reflexivity|]. eapply Qle_lt_trans; [apply Hub, Hq|exact H].
    + intros [Hne Hall].
      destruct (Silence.all_fin audio_data) as [xs ->].
      { intros x Hx. destruct (Hall x Hx) as [q [-> _]]. now exists q. }
      destruct xs as [|x xs]; [now contradiction Hne|].
      destruct (Silence.max_abs_fin x xs) as [p [Hm [_ [y [Hy ->]]]]].
      rewrite Hm. simpl bind. f_equal. apply (Silence.f_lt_fin (Qabs y)).
      destruct (Hall (Some y)) as [q [[= <-] Hq]]; [now apply in_map|].
      exact Hq.
Qed.

(** X6.  Draining the queue appends the chunks to the buffer in arrival
    order: no sample is lost, repeated or reordered. *)
Theorem collect_appends_in_order (audio_buffer : array) (chunks : list array) :
  collect audio_buffer chunks = audio_buffer ++ List.concat chunks /\
  Py.len (collect audio_buffer chunks)
  = Py.len audio_buffer + Py.len (List.concat chunks).
Proof.
  rewrite Loop.collect_concat. split; [reflexivity|apply PyFacts.len_app].
Qed.

(** X7.  After any number of iterations that end without an exception, the
    buffer is a suffix of the starting buffer followed by everything
    received: samples are only ever dropped from the front. *)
Theorem buffer_is_suffix_of_stream (self : TranscriptionThread) (st : locals)
  (arrivals : list (list array)) :
  match next (loop transcribe strip lower self st arrivals) with
  | Ok st' =>
    exists dropped,
      audio_buffer st ++ received arrivals = dropped ++ audio_buffer st'
  | Raise _ => True
  end.
Proof. exact (Loop.loop_suffix transcribe strip lower self arrivals st). Qed.

(** X8.  As long as the buffer and all that was received hold fewer than
    [MIN_SAMPLES] samples together, the loop transcribes nothing, emits
    nothing, raises nothing and keeps every sample. *)
Theorem nothing_before_min_samples (self : TranscriptionThread) (st : locals)
  (arrivals : list (list array)) :
  Py.len (audio_buffer st) + Py.len (received arrivals) < MIN_SAMPLES self ->
  loop transcribe strip lower self st arrivals
  = {| transcribed := []; emitted := [];
       next := Ok {| audio_buffer := audio_buffer st ++ received arrivals;
                     last_transcription := last_transcription st |} |}.
Proof. exact (Loop.loop_idle transcribe strip lower self arrivals st). Qed.

(** X9.  Over a whole run of the loop every emitted text is longer than
    10 characters, no emitted text occurs, lower-cased, in the lower-cased
    text emitted just before it (nor the first in the starting
    [last_transcription]), and at the end [last_transcription] is the last
    text emitted. *)
Theorem emitted_texts_are_fresh (self : TranscriptionThread) (st : locals)
  (arrivals : list (list array)) :
  let it := loop transcribe strip lower self st arrivals in
  Forall (fun text => Str.len text > MIN_PHRASE_LENGTH) (emitted it) /\
  fresh_chain lower (last_transcription st) (emitted it) /\
  match next it with
  | Ok st' =>
    last_transcription st' = List.last (emitted it) (last_transcription st)
  | Raise _ => True
  end.
Proof. exact (Loop.loop_emitted transcribe strip lower self arrivals st). Qed.

(** X10.  The loop transcribes at most once per iteration and emits at
    most one text per transcription. *)
Theorem one_transcription_per_iteration (self : TranscriptionThread)
  (st : locals) (arrivals : list (list array)) :
  let it := loop transcribe strip lower self st arrivals in
  (List.length (emitted it) <= List.length (transcribed it)
   <= List.length arrivals)%nat.
Proof. exact (Loop.loop_counts transcribe strip lower self arrivals st). Qed.

(** X11.  With a non-negative buffer size, every array the loop hands to
    the transcription is more than [SAMPLE_RATE] and at most [MIN_SAMPLES]
    samples of audio followed by [SAMPLE_RATE] zeros. *)
Theorem transcribed_arrays_are_bounded (self : TranscriptionThread)
  (st : locals) (arrivals : list (list array)) :
  0 <= buffer_size_seconds self ->
  Forall (fun seg =>
            exists body,
              seg = body ++ repeat (fin 0) (Z.to_nat SAMPLE_RATE) /\
              SAMPLE_RATE < Py.len body <= MIN_SAMPLES self)
         (transcribed (loop transcribe strip lower self st arrivals)).
Proof. exact (Loop.loop_transcribed transcribe strip lower self arrivals st). Qed.

(** X12.  When an iteration cuts the buffer, the buffer it leaves starts
    with the last second of the prefix it evaluated. *)
Theorem kept_buffer_starts_with_last_second (self : TranscriptionThread)
  (st : locals) :
  1 <= buffer_size_seconds self ->
  MIN_SAMPLES self <= Py.len (audio_buffer st) ->
  (exists e, next (process transcribe strip lower self st) = Raise e)
  \/
  (exists st',
     next (process transcribe strip lower self st) = Ok st' /\
     Py.slice_to (audio_buffer st') SAMPLE_RATE
     = Py.slice (audio_buffer st) (MIN_SAMPLES self - SAMPLE_RATE)
                (MIN_SAMPLES self)).
Proof.
  intros Hb Hmin.
  destruct (next (process transcribe strip lower self st)) as [st'|e] eqn:En;
    [|left; now exists e].
  right. exists st'. split; [reflexivity|].
  destruct (Loop.process_buffer transcribe strip lower self st st' En)
    as [[Hlt _]|[_ ->]]; [lia|].
  now apply Loop.kept_overlap.
Qed.

(** X13.  If the buffer starts below [MIN_SAMPLES] and no iteration
    receives more than [MIN_SAMPLES - SAMPLE_RATE] samples, then, unless
    an exception ends the loop, the buffer is below [MIN_SAMPLES] again
    after the last iteration, however many times it was cut. *)
Theorem buffer_stays_bounded (self : TranscriptionThread) (st : locals)
  (arrivals : list (list array)) :
  1 <= buffer_size_seconds self ->
  Py.len (audio_buffer st) < MIN_SAMPLES self ->
  Forall (fun chunks =>
            Py.len (List.concat chunks) <= MIN_SAMPLES self - SAMPLE_RATE)
         arrivals ->
  (exists e, next (loop transcribe strip lower self st arrivals) = Raise e)
  \/
  (exists st',
     next (loop transcribe strip lower self st arrivals) = Ok st' /\
     Py.len (audio_buffer st') < MIN_SAMPLES self).
Proof.
  intros Hb Hlen Hall.
  pose proof (Loop.loop_bounded transcribe strip lower self arrivals st
                Hb Hlen Hall) as H.
  destruct (next (loop transcribe strip lower self st arrivals)) as [st'|e].
  - right. now exists st'.
  - left. now exists e.
Qed.

(** X14.  In [run], with a buffer size of at least two seconds, the region
    the detector returns on the evaluated prefix is never exactly
    [SAMPLE_RATE] samples long. *)
Theorem run_region_never_one_second (self : TranscriptionThread)
  (audio_buffer : array) :
  2 <= buffer_size_seconds self ->
  MIN_SAMPLES self <= Py.len audio_buffer ->
  exists start end_,
    find_speech_boundaries (Py.slice_to audio_buffer (MIN_SAMPLES self))
    = Ok (start, end_) /\
    end_ - start <> SAMPLE_RATE.
Proof.
  intros Hb Hmin.
  destruct (Vad.find_speech_boundaries_range
              (Py.slice_to audio_buffer (MIN_SAMPLES self)))
    as [start [end_ [Hr _]]].
  exists start, end_. split; [exact Hr|].
  exact (Cycle.region_never_one_second self
           {| audio_buffer := audio_buffer; last_transcription := EmptyString |}
           start end_ Hb Hmin Hr).
Qed.

(** X15.  [get_available_devices] lists exactly the devices with at least
    one input channel, each under its PyAudio index and with its name
    followed by " (Virtual Cable)" when the name has "CABLE Output" in it
    and by " (Microphone)" otherwise. *)
Theorem available_devices_iff (p : list PyAudio.device_info) (text : string)
  (i : Z) :
  In (text, i) (get_available_devices p) <->
  0 <= i /\
  exists dev,
    nth_error p (Z.to_nat i) = Some dev /\
    PyAudio.maxInputChannels dev > 0 /\
    text = (if Str.contains (PyAudio.name dev) "CABLE Output"
            then PyAudio.name dev ++ " (Virtual Cable)"
            else PyAudio.name dev ++ " (Microphone)")%string.
Proof.
  unfold get_available_devices. rewrite Devices.available_from_In.
  rewrite Z.sub_0_r. unfold display_name. reflexivity.
Qed.

(** X16.  The devices are listed by strictly increasing PyAudio index: no
    device appears twice and the order of PyAudio is kept. *)
Theorem available_devices_ascending (p : list PyAudio.device_info) :
  StronglySorted Z.lt (map snd (get_available_devices p)).
Proof. apply Devices.available_from_sorted. Qed.

(** X17.  [on_device_changed] never raises.  An index outside the list
    leaves the thread as it is; an index inside selects the PyAudio index
    of a device that has an input channel.  The buffer size is never
    touched. *)
Theorem on_device_changed_selects_input (p : list PyAudio.device_info)
  (thread : TranscriptionThread) (index : Z) :
  exists thread',
    on_device_changed p thread index = Ok thread' /\
    buffer_size_seconds thread' = buffer_size_seconds thread /\
    (~ (0 <= index < Py.len (get_available_devices p)) -> thread' = thread) /\
    (0 <= index < Py.len (get_available_devices p) ->
     exists device_index dev,
       selected_device_index thread' = Some device_index /\
       nth_error p (Z.to_nat device_index) = Some dev /\
       PyAudio.maxInputChannels dev > 0).
Proof.
  destruct (Devices.on_device_changed_cases p thread index)
    as [[Hout ->]|[Hin [text [d [Hn ->]]]]].
  - exists thread. split; [reflexivity|]. split; [reflexivity|].
    split; [reflexivity|]. intros H. now contradiction Hout.
  - exists (set_device thread d). split; [reflexivity|].
    split; [reflexivity|]. split.
    + intros H. now contradiction H.
    + intros _. apply nth_error_In in Hn.
      apply Devices.available_from_In in Hn as [_ [dev [Hd [Hpos _]]]].
      rewrite Z.sub_0_r in Hd. exists d, dev. auto.
Qed.

(** X18.  [populate_device_list] pre-selects the first item with
    "Virtual Cable" in its text and calls [setCurrentIndex] for no other;
    it pre-selects one whenever some input device has "CABLE Output" in
    its name. *)
Theorem virtual_cable_is_preselected (p : list PyAudio.device_info) :
  let items := fst (populate_device_list p) in
  match snd (populate_device_list p) with
  | Some i =>
    0 <= i < Py.len items /\
    Str.contains (nth (Z.to_nat i) items EmptyString) "Virtual Cable" = true /\
    forall j, 0 <= j < i ->
      Str.contains (nth (Z.to_nat j) items EmptyString) "Virtual Cable" = false
  | None =>
    forall dev, In dev p -> PyAudio.maxInputChannels dev > 0 ->
      Str.contains (PyAudio.name dev) "CABLE Output" = false
  end.
Proof.
  cbv zeta. unfold populate_device_list. cbn [fst snd].
  pose proof (Devices.first_virtual_cable_spec
                (map fst (get_available_devices p)) 0) as H.
  destruct (first_virtual_cable 0 (map fst (get_available_devices p)))
    as [i|].
  - destruct H as [Hi [Hc Hb]]. rewrite Z.sub_0_r in Hc.
    split; [lia|]. split; [exact Hc|]. intros j Hj.
    specialize (Hb j Hj). now rewrite Z.sub_0_r in Hb.
  - intros dev Hin Hpos.
    destruct (Str.contains (PyAudio.name dev) "CABLE Output") eqn:E;
      [|reflexivity].
    apply In_nth_error in Hin as [n Hn].
    assert (Hd : In (display_name (PyAudio.name dev), Z.of_nat n)
                    (get_available_devices p)).
    { apply Devices.available_from_In. split; [lia|]. exists dev.
      rewrite Z.sub_0_r, Nat2Z.id. auto. }
    apply (in_map fst) in Hd. apply H in Hd. simpl in Hd.
    rewrite (Devices.display_name_cable _ E) in Hd. discriminate.
Qed.

(** X19.  A candidate offered to the duplicate filter twice in a row is
    never emitted the second time. *)
Theorem same_candidate_twice (transcript last : string) :
  fst (dedup_filter lower transcript
         (snd (dedup_filter lower transcript last))) = None.
Proof.
  rewrite (Dedup.dedup_filter_cases lower transcript last).
  destruct ((Str.len transcript >? MIN_PHRASE_LENGTH)
            && negb (Str.contains (lower last) (lower transcript))) eqn:E;
    cbn [snd]; rewrite Dedup.dedup_filter_cases.
  - rewrite Dedup2.contains_refl, andb_false_r. reflexivity.
  - rewrite E. reflexivity.
Qed.

(** X20.  On a region inside the buffer the extraction never raises: it
    yields no segment when the region has at most [SAMPLE_RATE] samples and
    a segment otherwise. *)
Theorem extraction_in_range (audio_buffer : array) (start end_ : Z) :
  0 <= start -> end_ <= Py.len audio_buffer ->
  (end_ - start <= SAMPLE_RATE /\
   extract_segment audio_buffer start end_ = Ok None)
  \/
  (SAMPLE_RATE < end_ - start /\
   exists seg, extract_segment audio_buffer start end_ = Ok (Some seg)).
Proof.
  intros H0 H1.
  destruct (Z_le_gt_dec (end_ - start) SAMPLE_RATE) as [Hs|Hl].
  - left. split; [exact Hs|]. now apply Extract.extract_segment_none.
  - right. split; [lia|].
    destruct (Extract.extract_segment_in_range audio_buffer start end_ H0 H1)
      as [body [_ [_ He]]]; [lia|].
    eexists. exact He.
Qed.

(** X21.  [run] sends transcription texts, each longer than 10
    characters and fresh with respect to the one before, then at most one
    error, after which it sends nothing; with no device selected it sends
    the one error "No audio input device selected." and no text. *)
Theorem run_signals (self : TranscriptionThread)
  (arrivals : list (list array)) :
  exists texts errors,
    run transcribe strip lower open_stream str self arrivals
    = map transcription_signal texts ++ map error_signal errors /\
    (List.length errors <= 1)%nat /\
    Forall (fun text => Str.len text > MIN_PHRASE_LENGTH) texts /\
    fresh_chain lower EmptyString texts /\
    (selected_device_index self = None ->
     texts = [] /\ errors = ["No audio input device selected."%string]).
Proof.
  unfold run. destruct (selected_device_index self) as [d|].
  - destruct (open_stream d) as [_|e].
    + pose proof (Loop.loop_emitted transcribe strip lower self arrivals
                    start_locals) as [Hl [Hc _]].
      exists (emitted (loop transcribe strip lower self start_locals arrivals)).
      destruct (next _) as [st'|e].
      * exists []. simpl. repeat split; auto; discriminate.
      * exists [("Error during transcription: " ++ str e)%string]. simpl.
        repeat split; auto; discriminate.
    + exists [], [("Error during transcription: " ++ str e)%string]. simpl.
      repeat split; auto; discriminate.
  - exists [], ["No audio input device selected."%string]. simpl.
    repeat split; auto.
Qed.

(** X22.  Chunks put on the queue by successive calls of
    [audio_callback] reach the buffer in the order of the calls, each
    exactly once; the callback always asks PyAudio to continue. *)
Theorem callbacks_reach_buffer_in_order (audio_buffer : array)
  (chunks : list array) :
  collect audio_buffer
    (fold_left (fun q in_data => fst (audio_callback q in_data)) chunks [])
  = audio_buffer ++ List.concat chunks /\
  forall q in_data, snd (audio_callback q in_data) = (None, paContinue).
Proof.
  rewrite App.queue_after_callbacks, Loop.collect_concat. simpl. auto.
Qed.

(** X23.  Whatever sequence of clicks, signals and closings the window
    handles after its creation, the two controls are disabled and the
    button reads "Stop Transcription" exactly while [is_transcribing]
    holds, and [is_transcribing] holds exactly when the last call made on
    the thread is [start()]: the thread is never started twice without a
    [stop()] and [wait()] in between. *)
Theorem window_stays_consistent (events : list app_event) :
  consistent (fold_left handle events app_init).
Proof. apply App.run_consistent, App.init_consistent. Qed.

(** X24.  An error never stays in the status label: after an error signal,
    and after a start attempted with no item selected, the label reads
    "Status: Stopped", the window is not transcribing and [stop()] and
    [wait()] were the last calls made on the thread. *)
Theorem error_text_is_overwritten (app : TranscriptionApp)
  (message currentText : string) :
  let after_error := handle app (signalled (error_signal message)) in
  let after_start := start_transcription app (-1) currentText in
  status_label after_error = "Status: Stopped"%string /\
  is_transcribing after_error = false /\
  thread_calls after_error = thread_calls app ++ [thread_stop; thread_wait] /\
  after_start = show_error app "Please select an input device" /\
  status_label after_start = "Status: Stopped"%string /\
  thread_calls after_start = thread_calls app ++ [thread_stop; thread_wait].
Proof. cbv zeta. repeat split. Qed.

End Extras.

(** * Further instances *)

Section ExtraInstances.

Local Open Scope string_scope.

(** X1 on 1024 zeros followed by 1025 ones: the second window is speech. *)
Lemma speech_region_spans_first_to_last_witness :
  let audio_data :=
    (repeat (fin 0) (Z.to_nat 1024) ++ repeat (fin 1) (Z.to_nat 1025))%list in
  let mask := speech_regions (energy audio_data) in
  Py.any mask = true /\
  exists i j,
    find_speech_boundaries audio_data
      = Ok (i * window_size, (j + 1) * window_size) /\
    speech_at mask i /\ speech_at mask j /\
    (forall k, speech_at mask k -> i <= k <= j) /\
    (j + 1) * window_size < Py.len audio_data.
Proof.
  intros audio_data mask.
  assert (H : Py.any mask = true) by (vm_compute; reflexivity).
  split; [exact H|].
  exact (speech_region_spans_first_to_last audio_data H).
Defined.

(** X3 on the same array. *)
Lemma no_speech_iff_zero_energy_witness :
  let audio_data :=
    (repeat (fin 0) (Z.to_nat 1024) ++ repeat (fin 1) (Z.to_nat 1025))%list in
  Forall finite audio_data /\
  (Py.any (speech_regions (energy audio_data)) = false <->
   forall e, In e (energy audio_data) -> exists q, e = Some q /\ (q == 0)%Q).
Proof.
  intros audio_data.
  assert (H : Forall finite audio_data).
  { apply Forall_app. split; apply Forall_forall; intros x Hx;
      apply repeat_spec in Hx as ->; discriminate. }
  split; [exact H|]. exact (no_speech_iff_zero_energy audio_data H).
Defined.

(** X4 on a [nan] followed by 1024 ones. *)
Lemma nan_returns_whole_array_witness :
  let audio_data := nan :: repeat (fin 1) (Z.to_nat 1024) in
  In 0 (window_offsets audio_data) /\
  In nan (Py.slice audio_data 0 (0 + window_size)) /\
  threshold (energy audio_data) = nan /\
  Py.any (speech_regions (energy audio_data)) = false /\
  find_speech_boundaries audio_data = Ok (0, Py.len audio_data).
Proof.
  intros audio_data.
  assert (H0 : In 0 (window_offsets audio_data)) by (vm_compute; now left).
  assert (H1 : In nan (Py.slice audio_data 0 (0 + window_size)))
    by (vm_compute; now left).
  split; [exact H0|]. split; [exact H1|].
  exact (nan_returns_whole_array audio_data 0 H0 H1).
Defined.

(** X8 on the default thread, three samples received in two iterations. *)
Lemma nothing_before_min_samples_witness :
  let arrivals := [[[fin 1; fin 2]]; [[fin 3]]] in
  let transcribe := fun _ : array => Ok "" in
  Py.len (audio_buffer start_locals) + Py.len (received arrivals)
  < MIN_SAMPLES init /\
  loop transcribe (fun s => s) Str.lower init start_locals arrivals
  = {| transcribed := []; emitted := [];
       next := Ok {| audio_buffer :=
                       (audio_buffer start_locals ++ received arrivals)%list;
                     last_transcription :=
                       last_transcription start_locals |} |}.
Proof.
  intros arrivals transcribe.
  assert (H : Py.len (audio_buffer start_locals) + Py.len (received arrivals)
              < MIN_SAMPLES init) by reflexivity.
  split; [exact H|].
  exact (nothing_before_min_samples transcribe (fun s => s) Str.lower init
           start_locals arrivals H).
Defined.

(** X11 on the default thread receiving ten seconds of zeros at once. *)
Lemma transcribed_arrays_are_bounded_witness :
  let arrivals := [[repeat (fin 0) (Z.to_nat 160000)]] in
  let transcribe := fun _ : array => Ok "" in
  0 <= buffer_size_seconds init /\
  Forall (fun seg =>
            exists body,
              seg = (body ++ repeat (fin 0) (Z.to_nat SAMPLE_RATE))%list /\
              SAMPLE_RATE < Py.len body <= MIN_SAMPLES init)
         (transcribed
            (loop transcribe (fun s => s) Str.lower init start_locals arrivals)).
Proof.
  intros arrivals transcribe.
  assert (H : 0 <= buffer_size_seconds init) by discriminate.
  split; [exact H|].
  exact (transcribed_arrays_are_bounded transcribe (fun s => s) Str.lower init
           start_locals arrivals H).
Defined.

(** X12 on a thread set to 5 seconds with a buffer of 80000 zeros. *)
Lemma kept_buffer_starts_with_last_second_witness :
  let self := set_buffer_size init 5 in
  let st := {| audio_buffer := repeat (fin 0) (Z.to_nat 80000);
               last_transcription := "" |} in
  let transcribe := fun _ : array => Ok "" in
  1 <= buffer_size_seconds self /\
  MIN_SAMPLES self <= Py.len (audio_buffer st) /\
  ((exists e,
      next (process transcribe (fun s => s) Str.lower self st) = Raise e)
   \/
   (exists st',
      next (process transcribe (fun s => s) Str.lower self st) = Ok st' /\
      Py.slice_to (audio_buffer st') SAMPLE_RATE
      = Py.slice (audio_buffer st) (MIN_SAMPLES self - SAMPLE_RATE)
                 (MIN_SAMPLES self))).
Proof.
  intros self st transcribe.
  assert (Hb : 1 <= buffer_size_seconds self) by discriminate.
  assert (Hmin : MIN_SAMPLES self <= Py.len (audio_buffer st)).
  { change (80000 <= Py.len (repeat (fin 0) (Z.to_nat 80000))).
    rewrite PyFacts.len_repeat; lia. }
  split; [exact Hb|]. split; [exact Hmin|].
  exact (kept_buffer_starts_with_last_second transcribe (fun s => s) Str.lower
           self st Hb Hmin).
Defined.

(** X13 on the default thread receiving 100000 samples in each of two
    iterations: the second finds 200000 samples, more than [MIN_SAMPLES],
    and cuts the buffer. *)
Lemma buffer_stays_bounded_witness :
  let chunk := repeat (fin 0) (Z.to_nat 100000) in
  let arrivals := [[chunk]; [chunk]] in
  let transcribe := fun _ : array => Ok "" in
  1 <= buffer_size_seconds init /\
  Py.len (audio_buffer start_locals) < MIN_SAMPLES init /\
  Forall (fun chunks =>
            Py.len (List.concat chunks) <= MIN_SAMPLES init - SAMPLE_RATE)
         arrivals /\
  MIN_SAMPLES init
  <= Py.len (audio_buffer start_locals) + Py.len (received arrivals) /\
  ((exists e,
      next (loop transcribe (fun s => s) Str.lower init start_locals arrivals)
      = Raise e)
   \/
   (exists st',
      next (loop transcribe (fun s => s) Str.lower init start_locals arrivals)
      = Ok st' /\
      Py.len (audio_buffer st') < MIN_SAMPLES init)).
Proof.
  intros chunk arrivals transcribe.
  assert (Hb : 1 <= buffer_size_seconds init) by discriminate.
  assert (H0 : Py.len (audio_buffer start_locals) < MIN_SAMPLES init)
    by reflexivity.
  assert (Hl : Py.len chunk = 100000)
    by (apply PyFacts.len_repeat; lia).
  assert (Hc : Py.len (List.concat [chunk]) <= MIN_SAMPLES init - SAMPLE_RATE).
  { cbn [List.concat]. rewrite app_nil_r, Hl. discriminate. }
  assert (Hall : Forall (fun chunks =>
                   Py.len (List.concat chunks)
                   <= MIN_SAMPLES init - SAMPLE_RATE) arrivals)
    by (repeat constructor; exact Hc).
  assert (Htotal : MIN_SAMPLES init
                   <= Py.len (audio_buffer start_locals)
                      + Py.len (received arrivals)).
  { unfold received, arrivals. cbn [map List.concat].
    rewrite !app_nil_r, PyFacts.len_app, Hl. discriminate. }
  split; [exact Hb|]. split; [exact H0|]. split; [exact Hall|].
  split; [exact Htotal|].
  exact (buffer_stays_bounded transcribe (fun s => s) Str.lower init
           start_locals arrivals Hb H0 Hall).
Defined.

(** X14 on the default thread with a buffer of 160000 zeros. *)
Lemma run_region_never_one_second_witness :
  let audio_buffer := repeat (fin 0) (Z.to_nat 160000) in
  2 <= buffer_size_seconds init /\
  MIN_SAMPLES init <= Py.len audio_buffer /\
  exists start end_,
    find_speech_boundaries (Py.slice_to audio_buffer (MIN_SAMPLES init))
    = Ok (start, end_) /\
    end_ - start <> SAMPLE_RATE.
Proof.
  intros audio_buffer.
  assert (Hb : 2 <= buffer_size_seconds init) by discriminate.
  assert (Hmin : MIN_SAMPLES init <= Py.len audio_buffer).
  { unfold audio_buffer. rewrite PyFacts.len_repeat by lia. discriminate. }
  split; [exact Hb|]. split; [exact Hmin|].
  exact (run_region_never_one_second init audio_buffer Hb Hmin).
Defined.

(** X20 on 16001 samples, taken whole. *)
Lemma extraction_in_range_witness :
  let audio_buffer := repeat (fin (-2)) (Z.to_nat 16001) in
  0 <= 0 /\ 16001 <= Py.len audio_buffer /\
  ((16001 - 0 <= SAMPLE_RATE /\
    extract_segment audio_buffer 0 16001 = Ok None)
   \/
   (SAMPLE_RATE < 16001 - 0 /\
    exists seg, extract_segment audio_buffer 0 16001 = Ok (Some seg))).
Proof.
  intros audio_buffer.
  assert (H0 : 0 <= 0) by lia.
  assert (H1 : 16001 <= Py.len audio_buffer).
  { unfold audio_buffer. rewrite PyFacts.len_repeat by lia. lia. }
  split; [exact H0|]. split; [exact H1|].
  exact (extraction_in_range audio_buffer 0 16001 H0 H1).
Defined.

End ExtraInstances.
